(** * Device sessions, pending-command dispatch and acknowledgments

    A shallow embedding of the socket.io handlers of [src/app.js]
    (connection, [register-device], [command-ack], [ping], [disconnect]) and
    of the Command schema of [src/models/CommandModel.js], with the
    properties the specification states about them. *)

From Stdlib Require Import ZArith Ascii String.
From stdpp Require Import base option list sorting gmap sets strings.

Open Scope string_scope.
Open Scope Z_scope.
Open Scope list_scope.

(** ** JavaScript values used by the handlers *)

(** A string-valued field of an event payload that may be absent
    ([undefined]/[null]) is an [option string].  [truthyStr v] is the operand
    [v] as the handlers test it ([if (v)], [!v], [v || null]): an absent value
    and the empty string are falsy. *)
Definition truthyStr (v : option string) : option string :=
  match v with
  | Some s => if decide (s = EmptyString) then None else Some s
  | None => None
  end.

(** [v || null] *)
Definition orNull (v : option string) : option string := truthyStr v.

(** ** Device identity normalizer *)

Module Normalizer.

Definition is_space (a : ascii) : bool :=
  match a with
  | " "%char | "009"%char | "010"%char | "011"%char | "012"%char
  | "013"%char => true
  | _ => false
  end.

Definition upper (a : ascii) : ascii :=
  let n := nat_of_ascii a in
  if ((97 <=? n)%nat && (n <=? 122)%nat)%bool
  then ascii_of_nat (n - 32) else a.

Fixpoint trim_left (s : string) : string :=
  match s with
  | String a r => if is_space a then trim_left r else s
  | EmptyString => EmptyString
  end.

Fixpoint trim_right (s : string) : string :=
  match s with
  | String a r =>
      match trim_right r with
      | EmptyString => if is_space a then EmptyString else String a EmptyString
      | r' => String a r'
      end
  | EmptyString => EmptyString
  end.

Definition trim (s : string) : string := trim_right (trim_left s).

Fixpoint to_upper (s : string) : string :=
  match s with
  | String a r => String (upper a) (to_upper r)
  | EmptyString => EmptyString
  end.

(** Modelled from the spec: [normalizeDeviceId] of [helpers/deviceId.js],
    which [src/app.js] imports and which is not among the sources.  The
    specification gives it as [normalize(raw) -> DeviceId | Invalid], failing
    on empty, whitespace-only or token-less input, and gives the canonical
    forms by example: the raw identifier ["a1"] is normalized to ["A1"], and
    ["  Device-001 "] and ["device-001"] have the same canonical form.  The
    model strips the surrounding white space, puts ASCII letters in upper
    case, and is [None] (Invalid) when no character is left. *)
Definition normalizeDeviceId (raw : string) : option string :=
  match to_upper (trim raw) with
  | EmptyString => None
  | d => Some d
  end.

(** A string that does not start with white space. *)
Definition no_lead (s : string) : Prop :=
  match s with String a _ => is_space a = false | EmptyString => True end.

End Normalizer.

(** ** The Command documents ([src/models/CommandModel.js]) *)

Module CommandModel.

Inductive Priority := low | normal | high.

Record Payload := {
  slot : option Z;
  number : option string;
  timestamp : option Z;
  requestedBy : option string;
  autoExecute : bool;
  priority : Priority
}.

Record CallForwardingStatus := {
  active : option bool;
  detectedAt : option Z;
  confirmedAt : option Z
}.

(** A stored document of [CommandSchema]; dates are milliseconds since the
    epoch; [createdAt] and [updatedAt] come from [timestamps: true]; the
    ObjectId [_id] is its rendering as 24 hexadecimal digits in lower case. *)
Record Command := {
  _id : string;
  deviceId : string;
  action : string;
  payload : Payload;
  done : bool;
  autoExecuted : bool;
  executedAt : option Z;
  ussdCode : option string;
  executionMessage : option string;
  callForwardingStatus : CallForwardingStatus;
  createdAt : Z;
  updatedAt : Z
}.

(** The update document that the [command-ack] handler passes to
    [findByIdAndUpdate]. *)
Record Update := {
  u_done : bool;
  u_error : option string;
  u_executedAt : Z;
  u_ussdCode : option string;
  u_executionMessage : option string;
  u_updatedAt : Z
}.

(** The update applied to one document.  [error] is not a path of
    [CommandSchema], so the document has no field for it; every path the
    update does not name is kept. *)
Definition applyUpdate (u : Update) (c : Command) : Command :=
  {| _id := _id c;
     deviceId := deviceId c;
     action := action c;
     payload := payload c;
     done := u_done u;
     autoExecuted := autoExecuted c;
     executedAt := Some (u_executedAt u);
     ussdCode := u_ussdCode u;
     executionMessage := u_executionMessage u;
     callForwardingStatus := callForwardingStatus c;
     createdAt := createdAt c;
     updatedAt := u_updatedAt u |}.

(** [timestamps: true] on an update: the model replaces the [updatedAt] of
    the update document by its own reading of the clock. *)
Definition applyTimestamps (stamp : Z) (u : Update) : Update :=
  {| u_done := u_done u;
     u_error := u_error u;
     u_executedAt := u_executedAt u;
     u_ussdCode := u_ussdCode u;
     u_executionMessage := u_executionMessage u;
     u_updatedAt := stamp |}.

Definition isHexDigit (a : ascii) : bool :=
  let n := nat_of_ascii a in
  ((48 <=? n)%nat && (n <=? 57)%nat
   || (97 <=? n)%nat && (n <=? 102)%nat
   || (65 <=? n)%nat && (n <=? 70)%nat)%bool.

Definition lowerHex (a : ascii) : ascii :=
  let n := nat_of_ascii a in
  if ((65 <=? n)%nat && (n <=? 70)%nat)%bool then ascii_of_nat (n + 32) else a.

Fixpoint allHex (s : string) : bool :=
  match s with
  | String a r => isHexDigit a && allHex r
  | EmptyString => true
  end.

Fixpoint toLowerHex (s : string) : string :=
  match s with
  | String a r => String (lowerHex a) (toLowerHex r)
  | EmptyString => EmptyString
  end.

(** The cast of a string to an ObjectId, which a query by [_id] makes first:
    a string of 24 hexadecimal digits, in either case, is the ObjectId of
    these digits; any other string is not an ObjectId ([None]: the operation
    rejects with a CastError).  (Drivers before bson 5 also took a string of
    12 bytes.) *)
Definition castObjectId (s : string) : option string :=
  if ((String.length s =? 24)%nat && allHex s)%bool
  then Some (toLowerHex s) else None.

(** The collection: its documents in natural order, and whether the
    database answers ([up = false]: the operation's promise rejects). *)
Record Store := { docs : list Command; up : bool }.

Inductive Promise (A : Type) := Resolved (a : A) | Rejected.
Arguments Resolved {A} a.
Arguments Rejected {A}.

(** The filter [{ deviceId, done: false }]. *)
Definition matchesPending (d : string) (c : Command) : Prop :=
  deviceId c = d ∧ done c = false.

#[export] Instance matchesPending_dec d c : Decision (matchesPending d c).
Proof. unfold matchesPending. apply _. Defined.

(** The order of [.sort({ createdAt: -1 })]. *)
Definition newestFirst (a b : Command) : Prop := createdAt b ≤ createdAt a.

#[export] Instance newestFirst_dec a b : Decision (newestFirst a b).
Proof. unfold newestFirst. apply _. Defined.

(** [Command.find({ deviceId, done: false }).sort({ createdAt: -1 }).limit(20)] *)
Definition findPending (d : string) (db : Store) : Promise (list Command) :=
  if up db
  then Resolved (take 20 (merge_sort newestFirst (filter (matchesPending d) (docs db))))
  else Rejected.

Fixpoint updateById (id : string) (u : Update) (l : list Command)
  : list Command * option Command :=
  match l with
  | [] => ([], None)
  | c :: r =>
      if decide (_id c = id)
      then (applyUpdate u c :: r, Some (applyUpdate u c))
      else let '(r', o) := updateById id u r in (c :: r', o)
  end.

(** [Command.findByIdAndUpdate(id, update, { new: true })], the model taking
    the reading [stamp] of the clock for [updatedAt]: [id] is cast to an
    ObjectId; the first document whose [_id] is that ObjectId is updated in
    place and returned, [null] ([None]) when there is none.  The promise
    rejects when [id] is no ObjectId and when the database does not answer. *)
Definition findByIdAndUpdate (id : string) (u : Update) (stamp : Z) (db : Store)
  : Promise (Store * option Command) :=
  match castObjectId id with
  | Some oid =>
      if up db
      then let '(l, o) := updateById oid (applyTimestamps stamp u) (docs db) in
           Resolved ({| docs := l; up := true |}, o)
      else Rejected
  | None => Rejected
  end.

Definition findById (id : string) (l : list Command) : option Command :=
  head (filter (λ c, _id c = id) l).

End CommandModel.

(** ** Events and their payloads ([src/app.js]) *)

Abbreviation Room := (option string).

(** The payload of the [registered] event. *)
Module RegistrationData.
Record t := {
  deviceId : string;
  timestamp : Z;
  socketId : string;
  rooms : gset Room;
  success : bool;
  message : string
}.
End RegistrationData.

(** The payload of the [command-ack] event, at the types the specification
    gives its fields; a field that the device left out is [None]. *)
Module AckData.
Record t := {
  commandId : option string;
  success : bool;
  error : option string;
  deviceId : option string;
  ussdCode : option string;
  message : option string
}.
End AckData.

(** What the server sends to a socket. *)
Inductive Message :=
| MsgError (message : string)
| MsgRegistered (data : RegistrationData.t)
| MsgCommand (cmd : CommandModel.Command) (urgent pending : bool)
| MsgCallForwardCommand (cmd : CommandModel.Command) (urgent pending : bool)
| MsgPong (timestamp : Z) (socketId : string)
| MsgPing.

(** The bodies of the timers that the [register-device] handler sets; each
    closes over the socket it was set for. *)
Inductive Task :=
| SendPending (socket : string) (cmd : CommandModel.Command)
| VerifyRoom (socket deviceId : string).

(** The [console.warn] and [console.error] lines. *)
Inductive Log :=
| WarnInvalidRegistration (rawId : string)
| ErrorFetchingPending
| ErrorRoomVerificationFailed (deviceId : string)
| WarnCommandNotFound (commandId : string)
| ErrorProcessingAck.

Inductive Effect :=
| Emit (socket : string) (m : Message)
| SetTimeout (task : Task) (delay : Z)
| SetInterval (socket : string) (delay : Z)
| ClearInterval (socket : string)
| Console (l : Log).

(** ** The server state *)

(** A connected socket: [socket.rooms] and [socket.data.deviceId].  A room is
    named by whatever value was passed to [socket.join]; [None] is the room of
    the value the normalizer returns for an identifier it rejects. *)
Record Socket := {
  rooms : gset Room;
  data_deviceId : option string
}.

(** The connected sockets by [socket.id], and the Command collection. *)
Record World := {
  sockets : gmap string Socket;
  db : CommandModel.Store
}.

Definition join (room : Room) (rs : gset Room) : gset Room := {[room]} ∪ rs.
Definition leave (room : Room) (rs : gset Room) : gset Room := rs ∖ {[room]}.

(** [io.in(deviceId).fetchSockets()]: the ids of the sockets in a room. *)
Definition membersOf (deviceId : string) (w : World) : gset string :=
  dom (filter (λ kv, Some deviceId ∈ rooms kv.2) (sockets w)).

Section Handlers.

(** [normalizeDeviceId] of [helpers/deviceId.js], which is not among the
    sources: the handlers are given for any normalizer. *)
Variable normalizeDeviceId : string → option string.

(** [io.on('connection', ...)]: the socket starts in its own room; a truthy
    [deviceId] of the handshake query is normalized and joined as it is. *)
Definition onConnection (sid : string) (queryDeviceId : option string)
  : Socket * list Effect :=
  let s :=
    match truthyStr queryDeviceId with
    | Some q =>
        let normalizedId := normalizeDeviceId q in
        {| rooms := join normalizedId {[Some sid]};
           data_deviceId := normalizedId |}
    | None => {| rooms := {[Some sid]}; data_deviceId := None |}
    end in
  (s, [SetInterval sid 30000]).

(** [currentRooms.forEach(room => { if (room !== socket.id) socket.leave(room) })] *)
Definition leaveOthers (sid : string) (currentRooms : list Room)
    (rs : gset Room) : gset Room :=
  foldl (λ acc room, if decide (room ≠ Some sid) then leave room acc else acc)
        rs currentRooms.

(** [pendingCommands.forEach((cmd, index) => setTimeout(..., index * 2000))] *)
Definition staggered (sid : string) (pendingCommands : list CommandModel.Command)
  : list Effect :=
  imap (λ index cmd, SetTimeout (SendPending sid cmd) (Z.of_nat index * 2000))
       pendingCommands.

(** [socket.on('register-device', async (rawId) => ...)] *)
Definition registerDevice (now : Z) (sid rawId : string) (s : Socket)
    (db : CommandModel.Store) : Socket * list Effect :=
  match truthyStr (normalizeDeviceId rawId) with
  | None =>
      (s, [Console (WarnInvalidRegistration rawId);
           Emit sid (MsgError "Invalid device ID")])
  | Some deviceId =>
      let currentRooms := elements (rooms s) in
      let rs := join (Some deviceId) (leaveOthers sid currentRooms (rooms s)) in
      let s' := {| rooms := rs; data_deviceId := Some deviceId |} in
      let registrationData :=
        {| RegistrationData.deviceId := deviceId;
           RegistrationData.timestamp := now;
           RegistrationData.socketId := sid;
           RegistrationData.rooms := rs;
           RegistrationData.success := true;
           RegistrationData.message :=
             "Successfully registered device " +:+ deviceId |} in
      let dispatch :=
        match CommandModel.findPending deviceId db with
        | CommandModel.Resolved pendingCommands => staggered sid pendingCommands
        | CommandModel.Rejected => [Console ErrorFetchingPending]
        end in
      (s', Emit sid (MsgRegistered registrationData)
             :: dispatch ++ [SetTimeout (VerifyRoom sid deviceId) 3000])
  end.

(** The update document of the [command-ack] handler; [now] and [later] are
    the readings of its two [new Date()]. *)
Definition ackUpdate (now later : Z) (d : AckData.t) : CommandModel.Update :=
  {| CommandModel.u_done := AckData.success d;
     CommandModel.u_error := orNull (AckData.error d);
     CommandModel.u_executedAt := now;
     CommandModel.u_ussdCode := orNull (AckData.ussdCode d);
     CommandModel.u_executionMessage := orNull (AckData.message d);
     CommandModel.u_updatedAt := later |}.

(** [socket.on('command-ack', async (data) => ...)]; destructuring an absent
    [data] throws inside the [try], as a rejected store operation does.  The
    clock is read at [now] and [later] by the handler and at [stamp] by the
    model. *)
Definition commandAck (now later stamp : Z) (data : option AckData.t)
    (db : CommandModel.Store) : CommandModel.Store * list Effect :=
  match data with
  | None => (db, [Console ErrorProcessingAck])
  | Some d =>
      match truthyStr (AckData.commandId d) with
      | Some commandId =>
          match CommandModel.findByIdAndUpdate commandId (ackUpdate now later d)
                  stamp db with
          | CommandModel.Resolved (db', Some updatedCommand) => (db', [])
          | CommandModel.Resolved (db', None) =>
              (db', [Console (WarnCommandNotFound commandId)])
          | CommandModel.Rejected => (db, [Console ErrorProcessingAck])
          end
      | None => (db, [])
      end
  end.

(** [socket.on('ping', ...)] *)
Definition onPing (now : Z) (sid : string) : list Effect :=
  [Emit sid (MsgPong now sid)].

(** What a timer does when it fires. *)
Definition runTask (t : Task) (w : World) : list Effect :=
  match t with
  | SendPending sid cmd =>
      [Emit sid (MsgCommand cmd true true);
       Emit sid (MsgCallForwardCommand cmd true true)]
  | VerifyRoom sid deviceId =>
      if decide (membersOf deviceId w = ∅)
      then [Console (ErrorRoomVerificationFailed deviceId)]
      else []
  end.

(** What the server reacts to.  [StoreChanged] is the environment: the
    operator API and the database itself change the collection and its
    availability between two socket events.  An acknowledgment comes with the
    readings of the clock that follow the first one. *)
Inductive Event :=
| Connection (sid : string) (queryDeviceId : option string)
| RegisterDevice (sid rawId : string)
| CommandAck (sid : string) (data : option AckData.t) (later stamp : Z)
| Ping (sid : string)
| Disconnect (sid : string)
| TimerFired (t : Task)
| HeartbeatTick (sid : string)
| StoreChanged (db' : CommandModel.Store).

Definition setSocket (sid : string) (s : Socket) (w : World) : World :=
  {| sockets := <[sid := s]> (sockets w); db := db w |}.

(** One event handled at time [now].  A socket's handlers exist only while it
    is connected; socket ids are fresh; on disconnect the transport takes the
    socket out of all its rooms. *)
Definition step (now : Z) (e : Event) (w : World) : World * list Effect :=
  match e with
  | Connection sid q =>
      match sockets w !! sid with
      | Some _ => (w, [])
      | None => let '(s, out) := onConnection sid q in (setSocket sid s w, out)
      end
  | RegisterDevice sid rawId =>
      match sockets w !! sid with
      | Some s =>
          let '(s', out) := registerDevice now sid rawId s (db w) in
          (setSocket sid s' w, out)
      | None => (w, [])
      end
  | CommandAck sid data later stamp =>
      match sockets w !! sid with
      | Some _ =>
          let '(db', out) := commandAck now later stamp data (db w) in
          ({| sockets := sockets w; db := db' |}, out)
      | None => (w, [])
      end
  | Ping sid =>
      match sockets w !! sid with
      | Some _ => (w, onPing now sid)
      | None => (w, [])
      end
  | Disconnect sid =>
      match sockets w !! sid with
      | Some _ =>
          ({| sockets := delete sid (sockets w); db := db w |}, [ClearInterval sid])
      | None => (w, [])
      end
  | TimerFired t => (w, runTask t w)
  | HeartbeatTick sid =>
      match sockets w !! sid with
      | Some _ => (w, [Emit sid MsgPing])
      | None => (w, [ClearInterval sid])
      end
  | StoreChanged db' => ({| sockets := sockets w; db := db' |}, [])
  end.

(** The states the server reaches from no connection at all. *)
Inductive reachable : World → Prop :=
| reachable_init db0 : reachable {| sockets := ∅; db := db0 |}
| reachable_step now e w : reachable w → reachable (step now e w).1.

End Handlers.

(** ** Observations on a handler's output *)

(** The timers set, with their delays. *)
Definition timers (out : list Effect) : list (Z * Task) :=
  omap (λ e, match e with SetTimeout t d => Some (d, t) | _ => None end) out.

(** The messages sent at once. *)
Definition emitted (out : list Effect) : list (string * Message) :=
  omap (λ e, match e with Emit sid m => Some (sid, m) | _ => None end) out.

(** The commands a message carries to a socket. *)
Definition carried (sm : string * Message)
  : option (string * CommandModel.Command) :=
  match sm.2 with
  | MsgCommand cmd _ _ => Some (sm.1, cmd)
  | _ => None
  end.

(** The [command] deliveries that the timers of [out] perform when they fire
    in the state [w]: delay, receiving socket, command. *)
Definition deliveries (w : World) (out : list Effect)
  : list (Z * string * CommandModel.Command) :=
  '(d, t) ← timers out;
  '(sid, cmd) ← omap carried (emitted (runTask t w));
  [(d, sid, cmd)].

(** Is the message an [error] event? *)
Definition isError (e : Effect) : bool :=
  match e with Emit _ (MsgError _) => true | _ => false end.

(** ** The room invariant *)

(** Every socket is in no room but the room of its own id and one more. *)
Definition roomsOk (w : World) : Prop :=
  ∀ sid s, sockets w !! sid = Some s →
           ∃ r : Room, rooms s ⊆ {[Some sid; r]}.

(** ** Relations between two versions of a document *)

(** The fields that no acknowledgment writes. *)
Definition sameFrame (c c' : CommandModel.Command) : Prop :=
  CommandModel._id c' = CommandModel._id c
  ∧ CommandModel.deviceId c' = CommandModel.deviceId c
  ∧ CommandModel.action c' = CommandModel.action c
  ∧ CommandModel.payload c' = CommandModel.payload c
  ∧ CommandModel.autoExecuted c' = CommandModel.autoExecuted c
  ∧ CommandModel.callForwardingStatus c' = CommandModel.callForwardingStatus c
  ∧ CommandModel.createdAt c' = CommandModel.createdAt c.

(** The same document but for the two dates that an acknowledgment sets. *)
Definition sameOutcome (c c' : CommandModel.Command) : Prop :=
  sameFrame c c'
  ∧ CommandModel.done c' = CommandModel.done c
  ∧ CommandModel.ussdCode c' = CommandModel.ussdCode c
  ∧ CommandModel.executionMessage c' = CommandModel.executionMessage c.

(** ** A small scenario *)

Module Scenario.
Import CommandModel.

Definition ussd : Payload :=
  {| slot := None; number := Some "*123#"; timestamp := None;
     requestedBy := None; autoExecute := false; priority := normal |}.

(** The ObjectId that ends in the two digits [n]. *)
Definition oid (n : string) : string := "64b0000000000000000000" +:+ n.

(** The command whose ObjectId ends in [id]. *)
Definition command (id dev : string) (created : Z) (isDone : bool) : Command :=
  {| _id := oid id; deviceId := dev; action := "EXEC_USSD"; payload := ussd;
     done := isDone; autoExecuted := false; executedAt := None;
     ussdCode := None; executionMessage := None;
     callForwardingStatus :=
       {| active := None; detectedAt := None; confirmedAt := None |};
     createdAt := created; updatedAt := created |}.

(** Three pending commands of the device A1, one of another device, and one
    that is done. *)
Definition store : Store :=
  {| docs := [command "c1" "A1" 10 false; command "c2" "A1" 30 false;
              command "c3" "B2" 25 false; command "c4" "A1" 20 false;
              command "c5" "A1" 40 true];
     up := true |}.

(** An acknowledgment of the command whose ObjectId ends in [id]. *)
Definition ack (id : string) (ok : bool) : AckData.t :=
  {| AckData.commandId := Some (oid id); AckData.success := ok;
     AckData.error := None; AckData.deviceId := Some "A1";
     AckData.ussdCode := None; AckData.message := Some "OK" |}.

(** An acknowledgment whose [commandId] is the empty string. *)
Definition ackNoId : AckData.t :=
  {| AckData.commandId := Some EmptyString; AckData.success := true;
     AckData.error := None; AckData.deviceId := None;
     AckData.ussdCode := None; AckData.message := None |}.

Definition run (es : list Event) (w : World) : World :=
  foldl (λ w e, (step Normalizer.normalizeDeviceId 0 e w).1) w es.

(** Two connections; the second names the device A1 in its handshake. *)
Definition world : World :=
  run [Connection "s1" None; Connection "s2" (Some "a1")]
      {| sockets := ∅; db := store |}.

(** The same, with a database that does not answer. *)
Definition worldDown : World :=
  {| sockets := sockets world; db := {| docs := docs store; up := false |} |}.

Definition N : string → option string := Normalizer.normalizeDeviceId.

(** A backlog of 21 pending commands of the device A1, the oldest first. *)
Definition backlogIds : list string :=
  ["01"; "02"; "03"; "04"; "05"; "06"; "07"; "08"; "09"; "10"; "11";
   "12"; "13"; "14"; "15"; "16"; "17"; "18"; "19"; "20"; "21"].

Definition backlog : Store :=
  {| docs := imap (λ i id, command id "A1" (Z.of_nat (S i)) false) backlogIds;
     up := true |}.

End Scenario.

(** ** Further observations on the server state *)

(** The socket whose handler an event runs; timers and the environment have
    none. *)
Definition subject (e : Event) : option string :=
  match e with
  | Connection sid _ | RegisterDevice sid _ | CommandAck sid _ _ _
  | Ping sid | Disconnect sid | HeartbeatTick sid => Some sid
  | TimerFired _ | StoreChanged _ => None
  end.

(** [socket.data.deviceId] agrees with [socket.rooms]: the socket is in the
    room of its own id, in no other room but the one that
    [socket.data.deviceId] names, and in that one when a device id is set. *)
Definition dataOk (w : World) : Prop :=
  ∀ sid s, sockets w !! sid = Some s →
           Some sid ∈ rooms s
           ∧ rooms s ⊆ {[Some sid; data_deviceId s]}
           ∧ (is_Some (data_deviceId s) → data_deviceId s ∈ rooms s).

(** The tasks of the timers set, in the order they are set. *)
Definition tasks (out : list Effect) : list Task := (timers out).*2.

(** All that the timers of [out] send when they fire in the state [w]:
    delay, receiving socket, message. *)
Definition firing (w : World) (out : list Effect)
  : list (Z * string * Message) :=
  '(d, t) ← timers out;
  '(sid, m) ← emitted (runTask t w);
  [(d, sid, m)].

(** The two messages that carry a pending command. *)
Definition pendingMessages (delay : Z) (sid : string)
    (cmd : CommandModel.Command) : list (Z * string * Message) :=
  [(delay, sid, MsgCommand cmd true true);
   (delay, sid, MsgCallForwardCommand cmd true true)].

(** The ObjectId that an acknowledgment names, when it names one. *)
Definition ackTarget (a : AckData.t) : option string :=
  truthyStr (AckData.commandId a) ≫= CommandModel.castObjectId.

(** Is the effect a message to a socket? *)
Definition isEmit (e : Effect) : bool :=
  match e with Emit _ _ => true | _ => false end.

(** The output of a successful registration after the confirmation: the
    pending commands' timers, or the log of the failed query, and then the
    verification timer. *)
Definition afterConfirmation (sid d : string) (db0 : CommandModel.Store)
  : list Effect :=
  match CommandModel.findPending d db0 with
  | CommandModel.Resolved l => staggered sid l
  | CommandModel.Rejected => [Console ErrorFetchingPending]
  end ++ [SetTimeout (VerifyRoom sid d) 3000].

(** ** The global error handler of the HTTP application ([src/app.js]) *)

Module ErrorHandler.

(** The fields of the thrown value that the handler reads; a field that the
    value does not have is [None]. *)
Record Error := {
  type : option string;
  name : option string;
  message : option string;
  status : option Z
}.

(** [res.status(code).json({ error, message, timestamp })] *)
Record Reply := {
  code : Z;
  body_error : string;
  body_message : option string;
  body_timestamp : option Z
}.

(** The handler answers, or faults itself: [error.message.includes] of a
    message that is not there is a TypeError, and an answer whose status is
    not within 100..999 is refused when it is sent. *)
Inductive Outcome := Sent (r : Reply) | Thrown.

(** [s.includes(needle)] *)
Fixpoint includes (needle s : string) : bool :=
  String.prefix needle s
  || match s with
     | String _ r => includes needle r
     | EmptyString => false
     end.

(** [error.status || 500] *)
Definition statusOr500 (st : option Z) : Z :=
  match st with
  | Some n => if decide (n = 0) then 500 else n
  | None => 500
  end.

(** [app.use((error, req, res, next) => ...)], with [process.env.NODE_ENV]
    and the time of the answer. *)
Definition globalErrorHandler (NODE_ENV : option string) (now : Z)
    (error : Error) : Outcome :=
  if decide (type error = Some "entity.too.large") then
    Sent {| code := 413; body_error := "Request too large";
            body_message := Some "The request payload is too large";
            body_timestamp := None |}
  else
    let fallback :=
      let code := statusOr500 (status error) in
      if decide (100 ≤ code ≤ 999) then
        Sent {| code := code;
                body_error := "Internal server error";
                body_message :=
                  if decide (NODE_ENV = Some "development") then message error
                  else Some "Something went wrong";
                body_timestamp := Some now |}
      else Thrown in
    if decide (name error = Some "SyntaxError") then
      match message error with
      | Some m =>
          if includes "JSON" m then
            Sent {| code := 400; body_error := "Invalid JSON";
                    body_message := Some "Request body contains invalid JSON";
                    body_timestamp := None |}
          else fallback
      | None => Thrown
      end
    else fallback.

End ErrorHandler.

(** ** The admin login ([src/controllers/AdminController.js]) *)

Module AdminController.

(** A field of the parsed request body: absent, a string, or any other JSON
    value. *)
Inductive JVal := JUndefined | JString (s : string) | JOther.

(** [v === e] for an environment variable [e], which is a string or is not
    set. *)
Definition strictEq (v : JVal) (e : option string) : bool :=
  match v, e with
  | JUndefined, None => true
  | JString s, Some t => bool_decide (s = t)
  | _, _ => false
  end.

Record Env := {
  ADMIN_USER : option string;
  ADMIN_PASS : option string;
  JWT_SECRET : option string
}.

Record Body := { username : JVal; password : JVal }.

Inductive Reply :=
| Status401 (msg : string)
| Token (token : string)
| Throws.

Section Login.

(** [jwt.sign({ username }, secret, { expiresIn: "15d" })] of the jsonwebtoken
    package, [None] when it throws. *)
Variable sign : JVal → option string → option string.

(** [const { username, password } = req.body || {}] *)
Definition credentials (body : option Body) : Body :=
  match body with
  | Some b => b
  | None => {| username := JUndefined; password := JUndefined |}
  end.

Definition adminLogin (env : Env) (body : option Body) : Reply :=
  let b := credentials body in
  if negb (strictEq (username b) (ADMIN_USER env))
     || negb (strictEq (password b) (ADMIN_PASS env))
  then Status401 "Bad creds"
  else match sign (username b) (JWT_SECRET env) with
       | Some token => Token token
       | None => Throws
       end.

End Login.

End AdminController.

(** ** Further cases of the scenario *)

Module Cases.

(** The sockets of [Scenario.world]: s1 is in its own room only, s2 joined
    the room of A1 with its handshake. *)
Definition s1 : Socket := {| rooms := {[Some "s1"]}; data_deviceId := None |}.

Definition s2 : Socket :=
  {| rooms := {[Some "s2"; Some "A1"]}; data_deviceId := Some "A1" |}.

(** The pending commands of A1 in [Scenario.store], newest first. *)
Definition pendingA1 : list CommandModel.Command :=
  [Scenario.command "c2" "A1" 30 false;
   Scenario.command "c4" "A1" 20 false;
   Scenario.command "c1" "A1" 10 false].

(** An acknowledgment whose [commandId] is no ObjectId. *)
Definition ackNoObjectId : AckData.t :=
  {| AckData.commandId := Some "zz"; AckData.success := true;
     AckData.error := None; AckData.deviceId := None;
     AckData.ussdCode := None; AckData.message := None |}.

(** The acknowledgment of [Scenario.ack], its [commandId] in upper case. *)
Definition ackUpper (id : string) (ok : bool) : AckData.t :=
  {| AckData.commandId := Some ("64B0000000000000000000" +:+ id);
     AckData.success := ok;
     AckData.error := None; AckData.deviceId := Some "A1";
     AckData.ussdCode := None; AckData.message := Some "OK" |}.

(** An error thrown by a route, with a message that is not for the client. *)
Definition routeError : ErrorHandler.Error :=
  {| ErrorHandler.type := None; ErrorHandler.name := Some "TypeError";
     ErrorHandler.message := Some "db password rejected";
     ErrorHandler.status := None |}.

(** The error of a body that is too large and is no valid JSON either. *)
Definition tooLarge : ErrorHandler.Error :=
  {| ErrorHandler.type := Some "entity.too.large";
     ErrorHandler.name := Some "SyntaxError";
     ErrorHandler.message := None;
     ErrorHandler.status := Some 413 |}.

Definition configured : AdminController.Env :=
  {| AdminController.ADMIN_USER := Some "admin";
     AdminController.ADMIN_PASS := Some "pw";
     AdminController.JWT_SECRET := Some "k" |}.

Definition unconfigured : AdminController.Env :=
  {| AdminController.ADMIN_USER := None;
     AdminController.ADMIN_PASS := None;
     AdminController.JWT_SECRET := Some "k" |}.

(** A stand-in for the signature: it needs a secret. *)
Definition sign (v : AdminController.JVal) (secret : option string)
  : option string :=
  match v, secret with
  | AdminController.JString u, Some k => Some (u +:+ "." +:+ k)
  | AdminController.JUndefined, Some k => Some ("." +:+ k)
  | _, _ => None
  end.

End Cases.

(** ** Properties of the normalizer *)

Module NormalizerFacts.
Import Normalizer.

Lemma upper_space a : is_space (upper a) = is_space a.
Proof. by destruct a as [[] [] [] [] [] [] [] []]. Qed.

Lemma upper_upper a : upper (upper a) = upper a.
Proof. by destruct a as [[] [] [] [] [] [] [] []]. Qed.

Lemma to_upper_idem s : to_upper (to_upper s) = to_upper s.
Proof. induction s as [|a r IH]; simpl; [done|]. by rewrite upper_upper, IH. Qed.

Lemma to_upper_empty s : to_upper s = EmptyString ↔ s = EmptyString.
Proof. by destruct s. Qed.

Lemma to_upper_trim_left s : to_upper (trim_left s) = trim_left (to_upper s).
Proof.
  induction s as [|a r IH]; simpl; [done|].
  rewrite upper_space. by destruct (is_space a).
Qed.

Lemma to_upper_trim_right s : to_upper (trim_right s) = trim_right (to_upper s).
Proof.
  induction s as [|a r IH]; simpl; [done|].
  rewrite <- IH, upper_space.
  destruct (trim_right r); simpl; [by destruct (is_space a)|done].
Qed.

Lemma to_upper_trim s : to_upper (trim s) = trim (to_upper s).
Proof. unfold trim. by rewrite to_upper_trim_right, to_upper_trim_left. Qed.

Lemma trim_right_idem s : trim_right (trim_right s) = trim_right s.
Proof.
  induction s as [|a r IH]; simpl; [done|].
  destruct (trim_right r) as [|b r'] eqn:E.
  - destruct (is_space a) eqn:Ea; simpl; [done|]. by rewrite Ea.
  - simpl. simpl in IH. by rewrite IH.
Qed.

Lemma trim_left_no_lead s : no_lead (trim_left s).
Proof.
  induction s as [|a r IH]; simpl; [done|].
  destruct (is_space a) eqn:Ea; [done|]. simpl. done.
Qed.

Lemma no_lead_trim_left s : no_lead s → trim_left s = s.
Proof. destruct s as [|a r]; simpl; [done|]. by intros ->. Qed.

Lemma no_lead_trim_right s : no_lead s → no_lead (trim_right s).
Proof.
  destruct s as [|a r]; simpl; [done|]. intros Ha.
  destruct (trim_right r); simpl; [by rewrite Ha|done].
Qed.

Lemma trim_idem s : trim (trim s) = trim s.
Proof.
  unfold trim.
  rewrite (no_lead_trim_left (trim_right _)).
  - apply trim_right_idem.
  - apply no_lead_trim_right, trim_left_no_lead.
Qed.

Lemma normalize_fixed raw d :
  normalizeDeviceId raw = Some d → d = to_upper (trim raw) ∧ d ≠ EmptyString.
Proof.
  unfold normalizeDeviceId. destruct (to_upper (trim raw)); [done|].
  intros [= <-]. done.
Qed.

End NormalizerFacts.

(** C8. Normalization is idempotent on every raw identifier that normalizes
    successfully: the canonical form [d] of [raw] is its own canonical form,
    so [normalize (normalize raw) = normalize raw]; and the raw identifiers
    ["  Device-001 "] and ["device-001"] have the same canonical DeviceId.
    (The normalizer is a function, hence pure and deterministic.) *)
Theorem normalize_idempotent :
  (∀ raw d,
      Normalizer.normalizeDeviceId raw = Some d →
      Normalizer.normalizeDeviceId d = Normalizer.normalizeDeviceId raw)
  ∧ Normalizer.normalizeDeviceId "  Device-001 "
    = Normalizer.normalizeDeviceId "device-001"
  ∧ Normalizer.normalizeDeviceId "device-001" = Some "DEVICE-001".
Proof.
  split; [|by vm_compute].
  intros raw d Hn. rewrite Hn.
  apply NormalizerFacts.normalize_fixed in Hn as [-> Hne].
  unfold Normalizer.normalizeDeviceId.
  rewrite NormalizerFacts.to_upper_trim, NormalizerFacts.to_upper_idem.
  rewrite <- NormalizerFacts.to_upper_trim, NormalizerFacts.trim_idem.
  by destruct (Normalizer.to_upper (Normalizer.trim raw)).
Qed.

(** The witness of C8 at the raw identifier ["  Device-001 "]. *)
Lemma normalize_idempotent_witness :
  Normalizer.normalizeDeviceId "  Device-001 " = Some "DEVICE-001"
  ∧ Normalizer.normalizeDeviceId "DEVICE-001"
    = Normalizer.normalizeDeviceId "  Device-001 ".
Proof.
  split; [by vm_compute|].
  apply (proj1 normalize_idempotent "  Device-001 " "DEVICE-001").
  by vm_compute.
Defined.


(** ** Rooms *)

Section RoomFacts.

Variable normalizeDeviceId : string → option string.

Lemma leaveOthers_spec (sid : string) (l : list Room) (rs : gset Room) :
  leaveOthers sid l rs = rs ∖ ((list_to_set l : gset Room) ∖ {[Some sid]}).
Proof.
  revert rs. induction l as [|room l IH]; intros rs; simpl.
  - set_solver.
  - rewrite IH. unfold leave. case_decide; set_solver.
Qed.

(** While the rooms are being left, the socket is in no room it was not in
    before: every prefix of the loop gives a subset. *)
Lemma leaveOthers_subseteq (sid : string) (l : list Room) (rs : gset Room) :
  leaveOthers sid l rs ⊆ rs.
Proof. rewrite leaveOthers_spec. set_solver. Qed.

Lemma leaveOthers_elements (sid : string) (rs : gset Room) :
  leaveOthers sid (elements rs) rs = rs ∩ {[Some sid]}.
Proof.
  rewrite leaveOthers_spec, list_to_set_elements_L.
  apply set_eq. intros r. rewrite elem_of_difference, elem_of_intersection.
  rewrite elem_of_difference. destruct (decide (r ∈ ({[Some sid]} : gset Room)));
    naive_solver.
Qed.

(** After a successful registration the socket is in its own room, if it was
    before, and in the device's room, and in no other. *)
Lemma registerDevice_rooms now sid rawId d s db0 :
  truthyStr (normalizeDeviceId rawId) = Some d →
  rooms (registerDevice normalizeDeviceId now sid rawId s db0).1
  = {[Some d]} ∪ (rooms s ∩ {[Some sid]}).
Proof.
  intros Hd. unfold registerDevice. rewrite Hd. simpl.
  by rewrite leaveOthers_elements.
Qed.

Lemma registerDevice_invalid now sid rawId s db0 :
  truthyStr (normalizeDeviceId rawId) = None →
  registerDevice normalizeDeviceId now sid rawId s db0
  = (s, [Console (WarnInvalidRegistration rawId);
         Emit sid (MsgError "Invalid device ID")]).
Proof. intros Hd. unfold registerDevice. by rewrite Hd. Qed.

Lemma elem_of_membersOf sid d w :
  sid ∈ membersOf d w ↔ ∃ s, sockets w !! sid = Some s ∧ Some d ∈ rooms s.
Proof.
  unfold membersOf. rewrite elem_of_dom. split.
  - intros [s Hs]. apply map_lookup_filter_Some in Hs as [? ?]. eauto.
  - intros (s & Hs & Hin). exists s. by apply map_lookup_filter_Some.
Qed.

Lemma setSocket_same sid s w : sockets w !! sid = Some s → setSocket sid s w = w.
Proof. intros H. destruct w as [ss d]. unfold setSocket. simpl in *. by rewrite insert_id. Qed.

Lemma step_sockets now e w :
  sockets (step normalizeDeviceId now e w).1 = sockets w
  ∨ (∃ sid q, e = Connection sid q ∧ sockets w !! sid = None
       ∧ sockets (step normalizeDeviceId now e w).1
         = <[sid := (onConnection normalizeDeviceId sid q).1]> (sockets w))
  ∨ (∃ sid rawId s, e = RegisterDevice sid rawId ∧ sockets w !! sid = Some s
       ∧ sockets (step normalizeDeviceId now e w).1
         = <[sid := (registerDevice normalizeDeviceId now sid rawId s (db w)).1]>
             (sockets w))
  ∨ (∃ sid, e = Disconnect sid
       ∧ sockets (step normalizeDeviceId now e w).1 = delete sid (sockets w)).
Proof.
  destruct e as [sid q|sid rawId|sid data later stamp|sid|sid|t|sid|db']; simpl;
    try (destruct (sockets w !! sid) as [s|] eqn:Hs); simpl; auto.
  - right; left. exists sid, q. by destruct (truthyStr q).
  - right; right; left. exists sid, rawId, s.
    by destruct (registerDevice _ _ _ _ _ _).
  - destruct (commandAck _ _ _ _ _); simpl; auto.
  - right; right; right. eauto.
Qed.

(** In a reachable state every socket is in its own room and in at most one
    other room. *)
Lemma roomsOk_reachable w : reachable normalizeDeviceId w → roomsOk w.
Proof.
  induction 1 as [db0|now e w Hr IH].
  - intros sid s. simpl. by rewrite lookup_empty.
  - intros sid s.
    destruct (step_sockets now e w)
      as [->|[(sid' & q & -> & Hn & ->)|[(sid' & raw & s' & -> & Hs' & ->)
                                        |(sid' & -> & ->)]]].
    + apply IH.
    + rewrite lookup_insert. case_decide as Heq; [|apply IH].
      subst sid'. intros [= <-]. unfold onConnection.
      destruct (truthyStr q) as [q'|]; simpl.
      * exists (normalizeDeviceId q'). unfold join. set_solver.
      * exists None. set_solver.
    + rewrite lookup_insert. case_decide as Heq; [|apply IH].
      subst sid'. intros [= <-].
      destruct (truthyStr (normalizeDeviceId raw)) as [d|] eqn:Hd.
      * exists (Some d). rewrite (registerDevice_rooms _ _ _ d) by done. set_solver.
      * rewrite registerDevice_invalid by done. simpl. by apply IH.
    + rewrite lookup_delete. case_decide; [done|apply IH].
Qed.

End RoomFacts.

(** ** Registration *)

Section RegistrationFacts.

Variable normalizeDeviceId : string → option string.

Lemma step_register_lookup now sid rawId d s w :
  sockets w !! sid = Some s →
  truthyStr (normalizeDeviceId rawId) = Some d →
  ∃ s', sockets (step normalizeDeviceId now (RegisterDevice sid rawId) w).1 !! sid
        = Some s'
        ∧ rooms s' = {[Some d]} ∪ (rooms s ∩ {[Some sid]}).
Proof.
  intros Hs Hd. simpl. rewrite Hs.
  pose proof (registerDevice_rooms normalizeDeviceId now sid rawId d s (db w) Hd) as Hr.
  destruct (registerDevice _ _ _ _ _ _) as [s' out]. simpl in *.
  exists s'. by rewrite lookup_insert_eq.
Qed.

Lemma step_register_member now sid rawId d s w :
  sockets w !! sid = Some s →
  truthyStr (normalizeDeviceId rawId) = Some d →
  sid ∈ membersOf d (step normalizeDeviceId now (RegisterDevice sid rawId) w).1.
Proof.
  intros Hs Hd.
  destruct (step_register_lookup now sid rawId d s w Hs Hd) as (s' & Hs' & Hr).
  apply elem_of_membersOf. exists s'. split; [done|]. rewrite Hr. set_solver.
Qed.

Lemma step_register_only now sid rawId d d' s w :
  sockets w !! sid = Some s →
  truthyStr (normalizeDeviceId rawId) = Some d →
  d' ≠ sid →
  sid ∈ membersOf d' (step normalizeDeviceId now (RegisterDevice sid rawId) w).1 →
  d' = d.
Proof.
  intros Hs Hd Hne Hin.
  destruct (step_register_lookup now sid rawId d s w Hs Hd) as (s' & Hs' & Hr).
  apply elem_of_membersOf in Hin as (s'' & Hs'' & Hin).
  rewrite Hs' in Hs''. injection Hs'' as <-. rewrite Hr in Hin. set_solver.
Qed.

(** In a reachable state a connection is in at most one room besides the
    room of its own id. *)
Lemma one_device_room w c d d' :
  reachable normalizeDeviceId w →
  d ≠ c → d' ≠ c → c ∈ membersOf d w → c ∈ membersOf d' w → d = d'.
Proof.
  intros Hr Hd Hd' Hin Hin'.
  apply elem_of_membersOf in Hin as (s & Hs & Hin).
  apply elem_of_membersOf in Hin' as (s' & Hs' & Hin').
  rewrite Hs in Hs'. injection Hs' as <-.
  destruct (roomsOk_reachable normalizeDeviceId w Hr c s Hs) as [r Hsub].
  pose proof (Hsub _ Hin) as H1. pose proof (Hsub _ Hin') as H2.
  rewrite elem_of_union, !elem_of_singleton in H1, H2.
  destruct H1 as [[= ?]|H1]; [done|].
  destruct H2 as [[= ?]|H2]; [done|]. congruence.
Qed.

Lemma staggered_timeouts sid l ef :
  ef ∈ staggered sid l → ∃ t delay, ef = SetTimeout t delay.
Proof.
  unfold staggered. intros Hin.
  apply elem_of_lookup_imap in Hin as (i & c & -> & _). eauto.
Qed.

Lemma registerDevice_no_error now sid rawId d s db0 ef :
  truthyStr (normalizeDeviceId rawId) = Some d →
  ef ∈ (registerDevice normalizeDeviceId now sid rawId s db0).2 →
  isError ef = false.
Proof.
  intros Hd. unfold registerDevice. rewrite Hd. simpl.
  rewrite elem_of_cons, elem_of_app, list_elem_of_singleton.
  intros [->|[Hin| ->]]; [done| |done].
  destruct (CommandModel.findPending d db0) as [l|].
  - by apply staggered_timeouts in Hin as (t & delay & ->).
  - by apply list_elem_of_singleton in Hin as ->.
Qed.

Lemma commandAck_no_emit now later stamp data db0 ef :
  ef ∈ (commandAck now later stamp data db0).2 → ∃ l, ef = Console l.
Proof.
  unfold commandAck. destruct data as [d|]; simpl.
  - destruct (truthyStr (AckData.commandId d)) as [cid|]; simpl;
      [|by intros ?%elem_of_nil].
    destruct (CommandModel.findByIdAndUpdate _ _ _ _) as [[db' [c|]]|]; simpl.
    + by intros ?%elem_of_nil.
    + intros ->%list_elem_of_singleton. eauto.
    + intros ->%list_elem_of_singleton. eauto.
  - intros ->%list_elem_of_singleton. eauto.
Qed.

(** An [error] event is sent only by a registration whose identifier is
    rejected. *)
Lemma error_only_invalid_registration now e w ef :
  ef ∈ (step normalizeDeviceId now e w).2 → isError ef = true →
  ∃ sid rawId, e = RegisterDevice sid rawId
               ∧ is_Some (sockets w !! sid)
               ∧ truthyStr (normalizeDeviceId rawId) = None.
Proof.
  destruct e as [sid q|sid rawId|sid data later stamp|sid|sid|t|sid|db']; simpl;
    try (destruct (sockets w !! sid) as [s|] eqn:Hs); simpl;
    try (by intros ?%elem_of_nil).
  - destruct (truthyStr q); simpl; by intros ->%list_elem_of_singleton.
  - destruct (truthyStr (normalizeDeviceId rawId)) as [d|] eqn:Hd.
    + pose proof (registerDevice_no_error now sid rawId d s (db w) ef Hd) as Hno.
      destruct (registerDevice _ _ _ _ _ _) as [s' out]. simpl in *.
      intros Hin He. rewrite Hno in He; done.
    + intros _ _. exists sid, rawId. rewrite Hs. eauto.
  - pose proof (commandAck_no_emit now later stamp data (db w) ef) as Hno.
    destruct (commandAck _ _ _ _ _) as [db' out]. simpl in *.
    intros Hin. by destruct (Hno Hin) as [l ->].
  - unfold onPing. by intros ->%list_elem_of_singleton.
  - by intros ->%list_elem_of_singleton.
  - destruct t as [sid' cmd|sid' d]; simpl.
    + rewrite elem_of_cons, list_elem_of_singleton. by intros [-> | ->].
    + case_decide; [by intros ->%list_elem_of_singleton|by intros ?%elem_of_nil].
  - by intros ->%list_elem_of_singleton.
  - by intros ->%list_elem_of_singleton.
Qed.

End RegistrationFacts.

(** C6. A connection that registers twice in succession, under the device
    ids [d1] and then [d2], is after the second registration a member of the
    room of [d2] and of no other device room (a room other than the one of its
    own socket id), the room of [d1] among them; and in every state the
    server reaches, a connection is a member of at most one device room. *)
Theorem reregistration_migrates_room
    (normalizeDeviceId : string → option string) (now1 now2 : Z)
    (sid raw1 raw2 d1 d2 : string) (w : World) :
  is_Some (sockets w !! sid) →
  truthyStr (normalizeDeviceId raw1) = Some d1 →
  truthyStr (normalizeDeviceId raw2) = Some d2 →
  d1 ≠ d2 →
  let w1 := (step normalizeDeviceId now1 (RegisterDevice sid raw1) w).1 in
  let w2 := (step normalizeDeviceId now2 (RegisterDevice sid raw2) w1).1 in
  sid ∈ membersOf d1 w1
  ∧ sid ∈ membersOf d2 w2
  ∧ (∀ d, d ≠ sid → sid ∈ membersOf d w2 → d = d2)
  ∧ (d1 ≠ sid → sid ∉ membersOf d1 w2)
  ∧ (∀ w', reachable normalizeDeviceId w' →
           ∀ c d d', d ≠ c → d' ≠ c →
                     c ∈ membersOf d w' → c ∈ membersOf d' w' → d = d').
Proof.
  intros [s Hs] H1 H2 Hne w1 w2.
  destruct (step_register_lookup normalizeDeviceId now1 sid raw1 d1 s w Hs H1)
    as (s1 & Hs1 & Hr1).
  fold w1 in Hs1.
  assert (Honly : ∀ d, d ≠ sid → sid ∈ membersOf d w2 → d = d2).
  { intros d Hd. by apply (step_register_only normalizeDeviceId now2 sid raw2 d2 d s1 w1). }
  repeat split.
  - by apply (step_register_member normalizeDeviceId now1 sid raw1 d1 s w).
  - by apply (step_register_member normalizeDeviceId now2 sid raw2 d2 s1 w1).
  - exact Honly.
  - intros Hd1 Hin. by apply Hne, Honly.
  - intros w' Hr' c d d'. by apply (one_device_room normalizeDeviceId).
Qed.

(** C5. A [register-device] event whose raw id fails normalization leaves
    the server state as it was (no room is joined, the connection stays), sends
    the device the [error] event and nothing else, and sets no timer, so that
    nothing is dispatched; and no other event, in any state, makes the server
    send an [error] event. *)
Theorem invalid_registration_error_only
    (normalizeDeviceId : string → option string) (now : Z)
    (sid rawId : string) (w : World) :
  is_Some (sockets w !! sid) →
  truthyStr (normalizeDeviceId rawId) = None →
  let r := step normalizeDeviceId now (RegisterDevice sid rawId) w in
  r.1 = w
  ∧ emitted r.2 = [(sid, MsgError "Invalid device ID")]
  ∧ timers r.2 = []
  ∧ deliveries r.1 r.2 = []
  ∧ (∀ now' e w' ef,
        ef ∈ (step normalizeDeviceId now' e w').2 → isError ef = true →
        ∃ sid' rawId', e = RegisterDevice sid' rawId'
                       ∧ is_Some (sockets w' !! sid')
                       ∧ truthyStr (normalizeDeviceId rawId') = None).
Proof.
  intros [s Hs] Hd r. subst r. unfold step. rewrite Hs.
  rewrite registerDevice_invalid by done. simpl.
  rewrite setSocket_same by done.
  repeat split; try done.
  intros now' e w' ef. apply error_only_invalid_registration.
Qed.

(** C4. When the pending-commands query fails during a registration with a
    valid id, the registration is complete all the same: the connection is
    joined to the device's room and stays connected, the [registered]
    confirmation is the one message sent, the failure is logged, no command is
    delivered, the room verification is still scheduled, and the store is as
    it was. *)
Theorem store_failure_keeps_registration
    (normalizeDeviceId : string → option string) (now : Z)
    (sid rawId d : string) (w : World) :
  is_Some (sockets w !! sid) →
  truthyStr (normalizeDeviceId rawId) = Some d →
  CommandModel.up (db w) = false →
  let r := step normalizeDeviceId now (RegisterDevice sid rawId) w in
  sid ∈ membersOf d r.1
  ∧ is_Some (sockets r.1 !! sid)
  ∧ (∃ data,
        r.2 = [Emit sid (MsgRegistered data); Console ErrorFetchingPending;
               SetTimeout (VerifyRoom sid d) 3000]
        ∧ RegistrationData.deviceId data = d
        ∧ RegistrationData.socketId data = sid
        ∧ RegistrationData.success data = true
        ∧ Some d ∈ RegistrationData.rooms data)
  ∧ deliveries r.1 r.2 = []
  ∧ (∀ ef, ef ∈ r.2 → isError ef = false)
  ∧ db r.1 = db w.
Proof.
  intros [s Hs] Hd Hup r.
  split; [by apply (step_register_member normalizeDeviceId now sid rawId d s w)|].
  split.
  { destruct (step_register_lookup normalizeDeviceId now sid rawId d s w Hs Hd)
      as (s' & Hs' & _). by exists s'. }
  subst r. simpl. rewrite Hs. unfold registerDevice. rewrite Hd.
  unfold CommandModel.findPending. rewrite Hup. simpl.
  repeat split.
  - eexists. repeat split. unfold join. set_solver.
  - unfold deliveries, timers. simpl. case_decide; done.
  - intros ef. rewrite !elem_of_cons. intros [->|[->|[->|?%elem_of_nil]]]; done.
Qed.

(** ** The pending-commands query *)

Module QueryFacts.
Import CommandModel.

#[export] Instance newestFirst_trans : Transitive newestFirst.
Proof. unfold newestFirst. intros a b c ??. lia. Qed.

#[export] Instance newestFirst_total : Total newestFirst.
Proof. unfold newestFirst. intros a b. lia. Qed.

Lemma StronglySorted_take {A} (R : relation A) n l :
  StronglySorted R l → StronglySorted R (take n l).
Proof.
  intros Hs. revert n. induction Hs as [|x l Hs IH Hx]; intros [|n]; simpl;
    try constructor; auto using Forall_take.
Qed.

Lemma findPending_up d db0 l :
  findPending d db0 = Resolved l → up db0 = true.
Proof. unfold findPending. by destruct (up db0). Qed.

(** What the query answers: at most 20 documents, all of the device and not
    done, newest first, taken from the matching documents of the store, and
    all of them when there are no more than 20. *)
Lemma findPending_spec d db0 l :
  findPending d db0 = Resolved l →
  (length l ≤ 20)%nat
  ∧ Forall (matchesPending d) l
  ∧ StronglySorted newestFirst l
  ∧ l ⊆+ filter (matchesPending d) (docs db0)
  ∧ ((length (filter (matchesPending d) (docs db0)) ≤ 20)%nat →
     l ≡ₚ filter (matchesPending d) (docs db0)).
Proof.
  unfold findPending. destruct (up db0); [|done]. intros [= <-].
  set (m := filter (matchesPending d) (docs db0)).
  assert (Hsub : take 20 (merge_sort newestFirst m) ⊆+ m).
  { etransitivity; [apply submseteq_take|].
    by rewrite merge_sort_Permutation. }
  repeat split.
  - rewrite length_take. lia.
  - apply Forall_forall. intros c Hc.
    assert (c ∈ m) as Hm by (by eapply elem_of_submseteq).
    by apply list_elem_of_filter in Hm as [? _].
  - apply StronglySorted_take, StronglySorted_merge_sort; apply _.
  - done.
  - intros Hlen. rewrite take_ge; [apply merge_sort_Permutation|].
    by rewrite merge_sort_Permutation.
Qed.

End QueryFacts.

(** ** Deliveries *)

Section DispatchFacts.

Variable normalizeDeviceId : string → option string.

Lemma deliveries_app w out1 out2 :
  deliveries w (out1 ++ out2) = deliveries w out1 ++ deliveries w out2.
Proof. unfold deliveries, timers. by rewrite omap_app, bind_app. Qed.

Lemma deliveries_imap w sid (delay : nat → Z) l :
  deliveries w (imap (λ i c, SetTimeout (SendPending sid c) (delay i)) l)
  = imap (λ i c, (delay i, sid, c)) l.
Proof.
  revert delay. induction l as [|c l IH]; intros delay; [done|].
  rewrite !imap_cons. change (?x :: ?l) with ([x] ++ l) at 1.
  rewrite deliveries_app. f_equal. apply (IH (delay ∘ S)).
Qed.

Lemma deliveries_staggered w sid l :
  deliveries w (staggered sid l)
  = imap (λ i c, (Z.of_nat i * 2000, sid, c)) l.
Proof. apply (deliveries_imap w sid (λ i, Z.of_nat i * 2000)). Qed.

Lemma deliveries_register w now sid rawId d s db0 l :
  truthyStr (normalizeDeviceId rawId) = Some d →
  CommandModel.findPending d db0 = CommandModel.Resolved l →
  deliveries w (registerDevice normalizeDeviceId now sid rawId s db0).2
  = imap (λ i c, (Z.of_nat i * 2000, sid, c)) l.
Proof.
  intros Hd Hl. unfold registerDevice. rewrite Hd, Hl. simpl.
  change (?x :: ?l) with ([x] ++ l) at 1.
  rewrite !deliveries_app, deliveries_staggered.
  unfold deliveries at 1 2. simpl. case_decide; simpl; by rewrite app_nil_r.
Qed.

Lemma firing_app w out1 out2 :
  firing w (out1 ++ out2) = firing w out1 ++ firing w out2.
Proof. unfold firing, timers. by rewrite omap_app, bind_app. Qed.

Lemma firing_imap w sid (delay : nat → Z) l :
  firing w (imap (λ i c, SetTimeout (SendPending sid c) (delay i)) l)
  = mjoin (imap (λ i c, pendingMessages (delay i) sid c) l).
Proof.
  revert delay. induction l as [|c l IH]; intros delay; [done|].
  rewrite !imap_cons. change (?x :: ?l) with ([x] ++ l) at 1.
  rewrite firing_app. simpl. f_equal. f_equal. apply (IH (delay ∘ S)).
Qed.

(** All that the timers of a successful registration send: the two messages
    of each command that the query returned, and nothing else. *)
Lemma firing_register w now sid rawId d s db0 l :
  truthyStr (normalizeDeviceId rawId) = Some d →
  CommandModel.findPending d db0 = CommandModel.Resolved l →
  firing w (registerDevice normalizeDeviceId now sid rawId s db0).2
  = mjoin (imap (λ i c, pendingMessages (Z.of_nat i * 2000) sid c) l).
Proof.
  intros Hd Hl. unfold registerDevice. rewrite Hd, Hl. simpl.
  change (?x :: ?l) with ([x] ++ l) at 1.
  rewrite !firing_app. unfold staggered.
  rewrite (firing_imap w sid (λ i, Z.of_nat i * 2000)).
  unfold firing at 1 2. simpl. case_decide; simpl; by rewrite app_nil_r.
Qed.

End DispatchFacts.

(** C3. On a registration with the valid id [d], when the store answers the
    query with [l]: [l] holds at most 20 commands, all of device [d] and not
    done, newest first, all the pending ones when they are no more than 20;
    and the deliveries are those of [l] in order, the command of index [i]
    after [i * 2000] ms, each of them to the registering connection and to no
    other member of the room.  All that the timers send is, for each command
    in this order, a [command] and a [call-forward-command] message to the
    registering connection, both with the command, [urgent] and [pending]. *)
Theorem pending_dispatch_to_registering_socket
    (normalizeDeviceId : string → option string) (now : Z)
    (sid rawId d : string) (w : World) (l : list CommandModel.Command) :
  is_Some (sockets w !! sid) →
  truthyStr (normalizeDeviceId rawId) = Some d →
  CommandModel.findPending d (db w) = CommandModel.Resolved l →
  let r := step normalizeDeviceId now (RegisterDevice sid rawId) w in
  (∀ w', deliveries w' r.2 = imap (λ i c, (Z.of_nat i * 2000, sid, c)) l)
  ∧ (∀ w', firing w' r.2
           = mjoin (imap (λ i c, pendingMessages (Z.of_nat i * 2000) sid c) l))
  ∧ (length l ≤ 20)%nat
  ∧ Forall (CommandModel.matchesPending d) l
  ∧ StronglySorted CommandModel.newestFirst l
  ∧ l ⊆+ filter (CommandModel.matchesPending d) (CommandModel.docs (db w))
  ∧ ((length (filter (CommandModel.matchesPending d) (CommandModel.docs (db w)))
      ≤ 20)%nat →
     l ≡ₚ filter (CommandModel.matchesPending d) (CommandModel.docs (db w))).
Proof.
  intros [s Hs] Hd Hl r.
  split; [|split; [|by apply QueryFacts.findPending_spec]];
    intros w'; subst r; simpl; rewrite Hs.
  - pose proof (deliveries_register normalizeDeviceId w' now sid rawId d s (db w) l
                  Hd Hl) as Hdel.
    by destruct (registerDevice _ _ _ _ _ _).
  - pose proof (firing_register normalizeDeviceId w' now sid rawId d s (db w) l
                  Hd Hl) as Hfir.
    by destruct (registerDevice _ _ _ _ _ _).
Qed.

(** The commands created at 30, 20 and 10 are delivered in that order, 2000 ms
    apart (the specification's t1 > t2 > t3). *)
Example dispatch_newest_first :
  let r := step Normalizer.normalizeDeviceId 1000 (RegisterDevice "s1" "a1")
                Scenario.world in
  deliveries r.1 r.2
  = [(0, "s1", Scenario.command "c2" "A1" 30 false);
     (2000, "s1", Scenario.command "c4" "A1" 20 false);
     (4000, "s1", Scenario.command "c1" "A1" 10 false)].
Proof. by vm_compute. Qed.

(** A connection that names its device in the handshake query joins the room
    of the device without any dispatch. *)
Example handshake_join_without_dispatch :
  let r := step Scenario.N 1000 (Connection "s3" (Some "a1")) Scenario.world in
  "s3" ∈ membersOf "A1" r.1 ∧ timers r.2 = [].
Proof. split; [|done]. apply (bool_decide_unpack _). by vm_compute. Qed.

(** C3 as stated fails: the connection s2 is a member of the room of A1
    when s1 registers for A1, and no pending command is delivered to it. *)
Lemma dispatch_misses_room_member :
  let r := step Normalizer.normalizeDeviceId 1000 (RegisterDevice "s1" "a1")
                Scenario.world in
  "s2" ∈ membersOf "A1" r.1
  ∧ CommandModel.findPending "A1" (db Scenario.world)
    = CommandModel.Resolved [Scenario.command "c2" "A1" 30 false;
                             Scenario.command "c4" "A1" 20 false;
                             Scenario.command "c1" "A1" 10 false]
  ∧ ¬ (∀ member, member ∈ membersOf "A1" r.1 →
                 ∃ delay cmd, (delay, member, cmd) ∈ deliveries r.1 r.2).
Proof.
  assert (Hin : "s2" ∈ membersOf "A1"
            (step Normalizer.normalizeDeviceId 1000 (RegisterDevice "s1" "a1")
                  Scenario.world).1).
  { apply (bool_decide_unpack _). by vm_compute. }
  split; [exact Hin|]. split; [by vm_compute|].
  intros Hall. destruct (Hall "s2" Hin) as (delay & cmd & Hd).
  rewrite dispatch_newest_first in Hd.
  repeat (apply elem_of_cons in Hd as [?|Hd]; [simplify_eq|]).
  by apply elem_of_nil in Hd.
Qed.

(** ** Updates of the collection *)

Module UpdateFacts.
Import CommandModel.

Lemma applyUpdate_frame u c : sameFrame c (applyUpdate u c).
Proof. by repeat split. Qed.

Lemma sameFrame_refl c : sameFrame c c.
Proof. by repeat split. Qed.

Lemma applyUpdate_twice u1 u2 c :
  applyUpdate u2 (applyUpdate u1 c) = applyUpdate u2 c.
Proof. done. Qed.

Lemma updateById_frame id u l :
  Forall2 sameFrame l (updateById id u l).1.
Proof.
  induction l as [|c l IH]; simpl; [constructor|].
  case_decide.
  - constructor; [apply applyUpdate_frame|].
    apply Forall_Forall2_diag, Forall_forall. intros ? _. apply sameFrame_refl.
  - destruct (updateById id u l) as [l' o]. simpl in *.
    constructor; [apply sameFrame_refl|done].
Qed.

Lemma findById_cons id c l :
  findById id (c :: l) = if decide (_id c = id) then Some c else findById id l.
Proof. unfold findById. rewrite filter_cons. by case_decide. Qed.

Lemma findById_Some id l c :
  findById id l = Some c → _id c = id ∧ c ∈ l.
Proof.
  unfold findById. intros Hh.
  assert (c ∈ filter (λ c, _id c = id) l) as Hin.
  { destruct (filter _ l); simplify_eq/=. apply list_elem_of_here. }
  by apply list_elem_of_filter in Hin.
Qed.

(** The first document of the id is replaced by its update, which is also
    what the operation returns. *)
Lemma updateById_found id u l c :
  findById id l = Some c →
  (updateById id u l).2 = Some (applyUpdate u c)
  ∧ findById id (updateById id u l).1 = Some (applyUpdate u c).
Proof.
  induction l as [|c0 l IH]; [done|].
  rewrite findById_cons. simpl. case_decide as Hid.
  - intros [= ->]. simpl. rewrite findById_cons. simpl. by rewrite decide_True.
  - intros Hf. destruct (IH Hf) as [IH1 IH2].
    destruct (updateById id u l) as [l' o]. simpl in *.
    rewrite findById_cons. by rewrite decide_False.
Qed.

Lemma updateById_missing id u l :
  findById id l = None → updateById id u l = (l, None).
Proof.
  induction l as [|c0 l IH]; [done|].
  rewrite findById_cons. simpl. case_decide; [done|].
  intros Hf. by rewrite (IH Hf).
Qed.

(** A second update of the same id makes the first one invisible. *)
Lemma updateById_twice id u1 u2 l :
  updateById id u2 (updateById id u1 l).1 = updateById id u2 l.
Proof.
  induction l as [|c l IH]; [done|]. simpl.
  case_decide as Hid; simpl.
  - by rewrite decide_True.
  - destruct (updateById id u1 l) as [l1 o1]. simpl in *.
    rewrite decide_False by done. by rewrite IH.
Qed.

(** An update at another time differs in the two dates only. *)
Lemma updateById_sameOutcome id u u' l :
  u_done u' = u_done u → u_ussdCode u' = u_ussdCode u →
  u_executionMessage u' = u_executionMessage u →
  Forall2 sameOutcome (updateById id u l).1 (updateById id u' l).1.
Proof.
  intros H1 H2 H3. induction l as [|c l IH]; simpl; [constructor|].
  case_decide.
  - constructor; [by repeat split|].
    apply Forall_Forall2_diag, Forall_forall. intros ? _. by repeat split.
  - destruct (updateById id u l) as [l1 o1], (updateById id u' l) as [l2 o2].
    constructor; [by repeat split|done].
Qed.

End UpdateFacts.

(** ** Acknowledgments *)

Section AckFacts.
Import CommandModel.

Lemma ackTarget_Some a id :
  ackTarget a = Some id
  ↔ ∃ cid, truthyStr (AckData.commandId a) = Some cid ∧ castObjectId cid = Some id.
Proof.
  unfold ackTarget. destruct (truthyStr (AckData.commandId a)) as [cid|]; simpl.
  - split; [by exists cid|]. by intros (? & [= <-] & ?).
  - split; [done|]. by intros (? & ? & _).
Qed.

(** The update document as it reaches the collection. *)
Lemma commandAck_eq now later stamp a db0 cid id :
  truthyStr (AckData.commandId a) = Some cid →
  castObjectId cid = Some id →
  up db0 = true →
  commandAck now later stamp (Some a) db0
  = ({| docs := (updateById id (applyTimestamps stamp (ackUpdate now later a))
                   (docs db0)).1;
        up := true |},
     match (updateById id (applyTimestamps stamp (ackUpdate now later a))
              (docs db0)).2 with
     | Some _ => []
     | None => [Console (WarnCommandNotFound cid)]
     end).
Proof.
  intros Hid Hc Hup. unfold commandAck, findByIdAndUpdate. rewrite Hid, Hc, Hup.
  by destruct (updateById _ _ _) as [l [c|]].
Qed.

Lemma commandAck_rejected now later stamp a db0 cid :
  truthyStr (AckData.commandId a) = Some cid →
  castObjectId cid = None ∨ up db0 = false →
  commandAck now later stamp (Some a) db0 = (db0, [Console ErrorProcessingAck]).
Proof.
  intros Hid Hor. unfold commandAck, findByIdAndUpdate. rewrite Hid.
  destruct (castObjectId cid); [|done].
  destruct Hor as [?|Hup]; [done|]. by rewrite Hup.
Qed.

Lemma commandAck_down now later stamp data db0 :
  up db0 = false → (commandAck now later stamp data db0).1 = db0.
Proof.
  intros Hup. destruct data as [a|]; [|done].
  destruct (truthyStr (AckData.commandId a)) as [cid|] eqn:Hid.
  - by rewrite (commandAck_rejected now later stamp a db0 cid) by auto.
  - unfold commandAck. by rewrite Hid.
Qed.

Lemma commandAck_no_target now later stamp a db0 :
  ackTarget a = None → (commandAck now later stamp (Some a) db0).1 = db0.
Proof.
  unfold ackTarget. destruct (truthyStr (AckData.commandId a)) as [cid|] eqn:Hid;
    intros Hc; simpl in Hc.
  - by rewrite (commandAck_rejected now later stamp a db0 cid) by auto.
  - unfold commandAck. by rewrite Hid.
Qed.

Lemma commandAck_up now later stamp data db0 :
  up (commandAck now later stamp data db0).1 = up db0.
Proof.
  destruct (up db0) eqn:Hup; [|by rewrite commandAck_down].
  destruct data as [a|]; [|done].
  destruct (ackTarget a) as [id|] eqn:Ht; [|by rewrite commandAck_no_target].
  apply ackTarget_Some in Ht as (cid & Hid & Hc).
  by rewrite (commandAck_eq now later stamp a db0 cid id).
Qed.

Lemma commandAck_frame now later stamp data db0 :
  Forall2 sameFrame (docs db0) (docs (commandAck now later stamp data db0).1).
Proof.
  assert (Hrefl : Forall2 sameFrame (docs db0) (docs db0)).
  { apply Forall_Forall2_diag, Forall_forall. intros ? _.
    apply UpdateFacts.sameFrame_refl. }
  destruct (up db0) eqn:Hup; [|by rewrite commandAck_down].
  destruct data as [a|]; [|done].
  destruct (ackTarget a) as [id|] eqn:Ht; [|by rewrite commandAck_no_target].
  apply ackTarget_Some in Ht as (cid & Hid & Hc).
  rewrite (commandAck_eq now later stamp a db0 cid id) by done.
  apply UpdateFacts.updateById_frame.
Qed.

Lemma commandAck_found now later stamp a db0 id c :
  ackTarget a = Some id →
  up db0 = true →
  findById id (docs db0) = Some c →
  commandAck now later stamp (Some a) db0
  = ({| docs := (updateById id (applyTimestamps stamp (ackUpdate now later a))
                   (docs db0)).1;
        up := true |}, [])
  ∧ findById id (docs (commandAck now later stamp (Some a) db0).1)
    = Some (applyUpdate (applyTimestamps stamp (ackUpdate now later a)) c).
Proof.
  intros (cid & Hid & Hc)%ackTarget_Some Hup Hf.
  rewrite (commandAck_eq now later stamp a db0 cid id) by done.
  destruct (UpdateFacts.updateById_found id
              (applyTimestamps stamp (ackUpdate now later a)) _ c Hf) as [-> ?].
  done.
Qed.

(** A second acknowledgment of the same ObjectId makes the first invisible. *)
Lemma commandAck_twice now1 later1 stamp1 now2 later2 stamp2 a1 a2 db0 :
  ackTarget a1 = ackTarget a2 →
  commandAck now2 later2 stamp2 (Some a2)
             (commandAck now1 later1 stamp1 (Some a1) db0).1
  = commandAck now2 later2 stamp2 (Some a2) db0.
Proof.
  intros Ht. destruct (up db0) eqn:Hup; [|by rewrite (commandAck_down now1)].
  destruct (ackTarget a1) as [id|] eqn:Ht1; [|by rewrite commandAck_no_target].
  symmetry in Ht.
  apply ackTarget_Some in Ht1 as (cid1 & Hid1 & Hc1).
  apply ackTarget_Some in Ht as (cid2 & Hid2 & Hc2).
  rewrite (commandAck_eq now1 later1 stamp1 a1 db0 cid1 id) by done.
  rewrite !(commandAck_eq now2 later2 stamp2 a2 _ cid2 id) by done. simpl.
  by rewrite UpdateFacts.updateById_twice.
Qed.

End AckFacts.

(** C1, as the code has it.  The update is unconditional: whatever state a
    known command is in, an acknowledgment writes its outcome, the time of its
    first clock reading as [executedAt] and the model's reading as
    [updatedAt].  A later acknowledgment of the same command does so again and
    makes the earlier one invisible, also when it reports another outcome: the
    store and the log are those of the later acknowledgment alone, the last
    write wins.  Applying the same acknowledgment again is therefore no error,
    and no no-op either: the command has the same [done] flag and result
    fields as after the first application, and the two dates of the second. *)
Theorem ack_last_write_wins (now1 later1 stamp1 now2 later2 stamp2 : Z)
    (a1 a2 : AckData.t) (db0 : CommandModel.Store) (id : string)
    (c : CommandModel.Command) :
  ackTarget a1 = Some id →
  ackTarget a2 = Some id →
  CommandModel.up db0 = true →
  CommandModel.findById id (CommandModel.docs db0) = Some c →
  let r1 := commandAck now1 later1 stamp1 (Some a1) db0 in
  let r2 := commandAck now2 later2 stamp2 (Some a2) r1.1 in
  r2 = commandAck now2 later2 stamp2 (Some a2) db0
  ∧ r2.2 = []
  ∧ (∃ c1 c2,
        CommandModel.findById id (CommandModel.docs r1.1) = Some c1
        ∧ CommandModel.findById id (CommandModel.docs r2.1) = Some c2
        ∧ CommandModel.done c1 = AckData.success a1
        ∧ CommandModel.executedAt c1 = Some now1
        ∧ CommandModel.updatedAt c1 = stamp1
        ∧ CommandModel.done c2 = AckData.success a2
        ∧ CommandModel.executedAt c2 = Some now2
        ∧ CommandModel.updatedAt c2 = stamp2
        ∧ sameFrame c1 c2
        ∧ (a2 = a1 → sameOutcome c1 c2))
  ∧ (a2 = a1 → Forall2 sameOutcome (CommandModel.docs r1.1) (CommandModel.docs r2.1)).
Proof.
  intros Ht1 Ht2 Hup Hf r1 r2.
  assert (Hlww : r2 = commandAck now2 later2 stamp2 (Some a2) db0).
  { subst r1 r2. apply commandAck_twice. congruence. }
  destruct (commandAck_found now1 later1 stamp1 a1 db0 id c Ht1 Hup Hf) as [E1 F1].
  destruct (commandAck_found now2 later2 stamp2 a2 db0 id c Ht2 Hup Hf) as [E2 F2].
  fold r1 in F1. rewrite <- Hlww in E2, F2.
  split; [done|]. split; [by rewrite E2|]. split.
  - eexists _, _. split; [exact F1|]. split; [exact F2|].
    do 6 (split; [done|]). split; [by repeat split|].
    intros ->. by repeat split.
  - intros ->. rewrite E2. subst r1. rewrite E1. simpl.
    by apply UpdateFacts.updateById_sameOutcome.
Qed.

(** C1 as stated fails: the command that ends in c1 is acknowledged with
    success at time 5 and is done; a second acknowledgment, of failure, at time
    6 sets it back to not done; and the repetition of the first acknowledgment
    at time 6 is not a no-op on the store. *)
Lemma conflicting_ack_overwrites :
  let db1 := (commandAck 5 5 5 (Some (Scenario.ack "c1" true)) Scenario.store).1 in
  let db2 := (commandAck 6 6 6 (Some (Scenario.ack "c1" false)) db1).1 in
  CommandModel.done
    <$> CommandModel.findById (Scenario.oid "c1") (CommandModel.docs db1)
  = Some true
  ∧ CommandModel.done
      <$> CommandModel.findById (Scenario.oid "c1") (CommandModel.docs db2)
    = Some false
  ∧ (commandAck 6 6 6 (Some (Scenario.ack "c1" true)) db1).1 ≠ db1.
Proof. repeat split; [by vm_compute..|]. intros H. by vm_compute in H. Qed.

(** C2, as the code has it.  An acknowledgment of a known command keeps the
    fields that identify and describe it, sets [done] to the reported
    [success], [executedAt] to the handler's first reading of the clock, the
    result fields to those of the payload, and [updatedAt] to the model's own
    reading.  With [success = true] the command matches the pending query of
    no device any more; with [success = false] it is not done and still
    matches the pending query of its device. *)
Theorem ack_sets_done_and_executedAt (now later stamp : Z) (a : AckData.t)
    (db0 : CommandModel.Store) (id : string) (c : CommandModel.Command) :
  ackTarget a = Some id →
  CommandModel.up db0 = true →
  CommandModel.findById id (CommandModel.docs db0) = Some c →
  ∃ c', CommandModel.findById id
          (CommandModel.docs (commandAck now later stamp (Some a) db0).1)
        = Some c'
        ∧ (commandAck now later stamp (Some a) db0).2 = []
        ∧ sameFrame c c'
        ∧ CommandModel.done c' = AckData.success a
        ∧ CommandModel.executedAt c' = Some now
        ∧ CommandModel.updatedAt c' = stamp
        ∧ CommandModel.ussdCode c' = truthyStr (AckData.ussdCode a)
        ∧ CommandModel.executionMessage c' = truthyStr (AckData.message a)
        ∧ (AckData.success a = true → ∀ d, ¬ CommandModel.matchesPending d c')
        ∧ (AckData.success a = false →
           CommandModel.matchesPending (CommandModel.deviceId c) c').
Proof.
  intros Ht Hup Hf.
  destruct (commandAck_found now later stamp a db0 id c Ht Hup Hf) as [Heq Hf'].
  eexists. split; [exact Hf'|]. rewrite Heq. simpl. repeat split; try done.
  - intros Hs d [_ Hd]. simpl in Hd. congruence.
Qed.

(** C2 as stated fails: after the acknowledgment of failure the command
    that ends in c1 is not in a state of its own: it is not done, and the
    pending query of its device returns it. *)
Lemma failed_command_still_pending :
  let db1 := (commandAck 5 5 5 (Some (Scenario.ack "c1" false)) Scenario.store).1 in
  ∃ c', CommandModel.findById (Scenario.oid "c1") (CommandModel.docs db1) = Some c'
        ∧ CommandModel.done c' = false
        ∧ CommandModel.matchesPending "A1" c'
        ∧ ∃ l, CommandModel.findPending "A1" db1 = CommandModel.Resolved l ∧ c' ∈ l.
Proof.
  eexists. split; [by vm_compute|]. repeat split.
  eexists. split; [by vm_compute|]. rewrite !elem_of_cons. auto.
Qed.

(** C7. No handler but the acknowledgment writes to the Command collection:
    a connection, a registration with its dispatch, a firing timer (the
    delivery of a pending command, the room verification), a ping, a heartbeat
    and a disconnection leave the store as it is, so that a delivered command
    is stored as it was found, not done.  An acknowledgment keeps the number
    and the order of the documents and, in each of them, the id, [deviceId],
    [action], [payload], [autoExecuted], [callForwardingStatus] and
    [createdAt]. *)
Theorem only_ack_mutates_commands
    (normalizeDeviceId : string → option string) (now : Z) (e : Event) (w : World) :
  match e with
  | CommandAck _ _ _ _ =>
      Forall2 sameFrame (CommandModel.docs (db w))
              (CommandModel.docs (db (step normalizeDeviceId now e w).1))
      ∧ CommandModel.up (db (step normalizeDeviceId now e w).1) = CommandModel.up (db w)
  | StoreChanged _ => True
  | _ => db (step normalizeDeviceId now e w).1 = db w
  end.
Proof.
  destruct e as [sid q|sid rawId|sid data later stamp|sid|sid|t|sid|db']; simpl.
  - destruct (sockets w !! sid); [done|]. by destruct (truthyStr q).
  - destruct (sockets w !! sid); [|done]. by destruct (registerDevice _ _ _ _ _ _).
  - destruct (sockets w !! sid).
    + pose proof (commandAck_frame now later stamp data (db w)) as Hfr.
      pose proof (commandAck_up now later stamp data (db w)) as Hup.
      by destruct (commandAck _ _ _ _ _).
    + split; [|done]. apply Forall_Forall2_diag, Forall_forall. intros ? _.
      apply UpdateFacts.sameFrame_refl.
  - by destruct (sockets w !! sid).
  - by destruct (sockets w !! sid).
  - done.
  - by destruct (sockets w !! sid).
  - done.
Qed.

(** C9, as the code has it.  A known command acknowledged with
    [success = false] is stored not done, so that it matches the pending query
    of its device and is not excluded as terminal.  At the next registration
    for the device it is delivered again exactly when it is among the commands
    that the capped query returns, and it is among them whenever the device
    has no more than 20 pending commands. *)
Theorem failed_command_redelivered
    (normalizeDeviceId : string → option string) (now later stamp now' : Z)
    (a : AckData.t) (db0 : CommandModel.Store) (id sid rawId : string)
    (c : CommandModel.Command) (s : Socket) (w' : World) :
  ackTarget a = Some id →
  AckData.success a = false →
  CommandModel.up db0 = true →
  CommandModel.findById id (CommandModel.docs db0) = Some c →
  truthyStr (normalizeDeviceId rawId) = Some (CommandModel.deviceId c) →
  let db1 := (commandAck now later stamp (Some a) db0).1 in
  let pending :=
    filter (CommandModel.matchesPending (CommandModel.deviceId c))
           (CommandModel.docs db1) in
  ∃ c' l,
    CommandModel.findById id (CommandModel.docs db1) = Some c'
    ∧ CommandModel.done c' = false
    ∧ CommandModel.matchesPending (CommandModel.deviceId c) c'
    ∧ c' ∈ pending
    ∧ CommandModel.findPending (CommandModel.deviceId c) db1
      = CommandModel.Resolved l
    ∧ ((∃ delay,
           (delay, sid, c')
           ∈ deliveries w' (registerDevice normalizeDeviceId now' sid rawId s db1).2)
       ↔ c' ∈ l)
    ∧ ((length pending ≤ 20)%nat → c' ∈ l).
Proof.
  intros Ht Hfail Hup Hf Hd db1 pending.
  destruct (commandAck_found now later stamp a db0 id c Ht Hup Hf) as [Heq Hf'].
  fold db1 in Hf'.
  set (c' := CommandModel.applyUpdate
               (CommandModel.applyTimestamps stamp (ackUpdate now later a)) c) in *.
  assert (Hm : CommandModel.matchesPending (CommandModel.deviceId c) c') by done.
  assert (Hin : c' ∈ pending).
  { apply list_elem_of_filter. split; [done|].
    by apply UpdateFacts.findById_Some in Hf' as [_ ?]. }
  assert (Hup1 : CommandModel.up db1 = true).
  { subst db1. by rewrite commandAck_up. }
  destruct (CommandModel.findPending (CommandModel.deviceId c) db1) as [l|] eqn:Hl;
    [|unfold CommandModel.findPending in Hl; by rewrite Hup1 in Hl].
  exists c', l. do 5 (split; [done|]).
  rewrite (deliveries_register normalizeDeviceId w' now' sid rawId _ s db1 l Hd Hl).
  split.
  - split.
    + intros [delay Hdel].
      apply elem_of_lookup_imap in Hdel as (i & x & [= _ ->] & Hi).
      by apply list_elem_of_lookup_2 in Hi.
    + intros [i Hi]%list_elem_of_lookup. exists (Z.of_nat i * 2000).
      apply (elem_of_lookup_imap_2 (λ i c, (Z.of_nat i * 2000, sid, c)) l c' i Hi).
  - intros Hlen.
    destruct (QueryFacts.findPending_spec _ _ _ Hl) as (_ & _ & _ & _ & Hperm).
    by rewrite (Hperm Hlen).
Qed.

(** C9 as stated fails: the device A1 has 21 pending commands; the oldest is
    acknowledged with failure and still matches the pending query, but the
    next registration for A1 delivers the 20 newer ones and not this one. *)
Lemma failed_command_beyond_cap :
  let db1 :=
    (commandAck 30 30 30 (Some (Scenario.ack "01" false)) Scenario.backlog).1 in
  let r := step Scenario.N 40 (RegisterDevice "s1" "a1")
                {| sockets := sockets Scenario.world; db := db1 |} in
  (∃ c', CommandModel.findById (Scenario.oid "01") (CommandModel.docs db1) = Some c'
         ∧ CommandModel.matchesPending "A1" c')
  ∧ length (deliveries r.1 r.2) = 20%nat
  ∧ Forall (λ x, CommandModel._id x.2 ≠ Scenario.oid "01") (deliveries r.1 r.2).
Proof.
  split; [eexists; split; [by vm_compute|done]|].
  split; [by vm_compute|]. apply (bool_decide_unpack _). by vm_compute.
Qed.

(** C10. A [command-ack] event whose [commandId] is absent or falsy changes
    nothing and logs nothing: the server state, the store in it, is the same,
    and there is no output.  (An event without a payload at all is caught and
    logged, and changes nothing either.) *)
Theorem ack_without_commandId_is_noop
    (normalizeDeviceId : string → option string) (now later stamp : Z)
    (sid : string) (a : AckData.t) (w : World) :
  truthyStr (AckData.commandId a) = None →
  step normalizeDeviceId now (CommandAck sid (Some a) later stamp) w = (w, [])
  ∧ (step normalizeDeviceId now (CommandAck sid None later stamp) w).1 = w.
Proof.
  intros Hid. destruct w as [ss db0]. simpl.
  destruct (ss !! sid); [|done]. unfold commandAck. by rewrite Hid.
Qed.

(** ** The theorems at the scenario *)

Lemma scenario_reachable : reachable Scenario.N Scenario.world.
Proof.
  change (reachable Scenario.N
            (step Scenario.N 0 (Connection "s2" (Some "a1"))
               (step Scenario.N 0 (Connection "s1" None)
                  {| sockets := ∅; db := Scenario.store |}).1).1).
  do 2 apply reachable_step. apply reachable_init.
Defined.

Lemma scenario_connected : is_Some (sockets Scenario.world !! "s1").
Proof. apply (bool_decide_unpack _). by vm_compute. Defined.

Lemma scenario_connected_down : is_Some (sockets Scenario.worldDown !! "s1").
Proof. apply (bool_decide_unpack _). by vm_compute. Defined.

(** C6 at the scenario: s1 registers for A1 and then for B2; s2 is in the
    room of A1 only. *)
Lemma reregistration_migrates_room_witness :
  let w1 := (step Scenario.N 1 (RegisterDevice "s1" "a1") Scenario.world).1 in
  let w2 := (step Scenario.N 2 (RegisterDevice "s1" " b2 ") w1).1 in
  truthyStr (Scenario.N "a1") = Some "A1"
  ∧ truthyStr (Scenario.N " b2 ") = Some "B2"
  ∧ "s1" ∈ membersOf "B2" w2
  ∧ ("s1" ∉ membersOf "A1" w2)
  ∧ (∀ d, d ≠ "s2" → "s2" ∈ membersOf d Scenario.world → d = "A1").
Proof.
  pose proof (reregistration_migrates_room Scenario.N 1 2 "s1" "a1" " b2 " "A1" "B2"
                Scenario.world scenario_connected
                eq_refl eq_refl ltac:(discriminate)) as (_ & H2 & _ & H4 & H5).
  do 2 (split; [reflexivity|]).
  split; [exact H2|]. split; [apply H4; discriminate|].
  intros d Hd Hin.
  apply (H5 Scenario.world scenario_reachable "s2" d "A1" Hd); [discriminate|done|].
  apply (bool_decide_unpack _). by vm_compute.
Defined.

(** C5 at the scenario: s1 registers with a blank identifier. *)
Lemma invalid_registration_error_only_witness :
  truthyStr (Scenario.N "   ") = None
  ∧ step Scenario.N 1 (RegisterDevice "s1" "   ") Scenario.world
    = (Scenario.world,
       [Console (WarnInvalidRegistration "   "); Emit "s1" (MsgError "Invalid device ID")]).
Proof.
  pose proof (invalid_registration_error_only Scenario.N 1 "s1" "   "
                Scenario.world scenario_connected eq_refl) as (H1 & _).
  split; [done|]. apply injective_projections; [exact H1|by vm_compute].
Defined.

(** C4 at the scenario: s1 registers for A1 while the database is down. *)
Lemma store_failure_keeps_registration_witness :
  let r := step Scenario.N 1 (RegisterDevice "s1" "a1") Scenario.worldDown in
  CommandModel.up (db Scenario.worldDown) = false
  ∧ "s1" ∈ membersOf "A1" r.1
  ∧ is_Some (sockets r.1 !! "s1")
  ∧ deliveries r.1 r.2 = [].
Proof.
  pose proof (store_failure_keeps_registration Scenario.N 1 "s1" "a1" "A1"
                Scenario.worldDown scenario_connected_down eq_refl eq_refl)
    as (H1 & H2 & _ & H4 & _).
  by repeat split.
Defined.

(** C3 at the scenario: s1 registers for A1, which has three pending commands. *)
Lemma pending_dispatch_to_registering_socket_witness :
  let l := [Scenario.command "c2" "A1" 30 false;
            Scenario.command "c4" "A1" 20 false;
            Scenario.command "c1" "A1" 10 false] in
  let r := step Scenario.N 1 (RegisterDevice "s1" "a1") Scenario.world in
  CommandModel.findPending "A1" (db Scenario.world) = CommandModel.Resolved l
  ∧ (∀ w', deliveries w' r.2 = imap (λ i c, (Z.of_nat i * 2000, "s1", c)) l)
  ∧ StronglySorted CommandModel.newestFirst l.
Proof.
  assert (Hl : CommandModel.findPending "A1" (db Scenario.world)
               = CommandModel.Resolved
                   [Scenario.command "c2" "A1" 30 false;
                    Scenario.command "c4" "A1" 20 false;
                    Scenario.command "c1" "A1" 10 false]) by (by vm_compute).
  pose proof (pending_dispatch_to_registering_socket Scenario.N 1 "s1" "a1" "A1"
                Scenario.world _ scenario_connected eq_refl Hl)
    as (H1 & _ & _ & _ & H4 & _).
  by repeat split.
Defined.

(** C1 at the scenario: a success and then a failure are acknowledged for
    the command that ends in c1. *)
Lemma ack_last_write_wins_witness :
  let r1 := commandAck 5 6 7 (Some (Scenario.ack "c1" true)) Scenario.store in
  let r2 := commandAck 8 9 10 (Some (Scenario.ack "c1" false)) r1.1 in
  ackTarget (Scenario.ack "c1" true) = Some (Scenario.oid "c1")
  ∧ ackTarget (Scenario.ack "c1" false) = Some (Scenario.oid "c1")
  ∧ CommandModel.findById (Scenario.oid "c1") (CommandModel.docs Scenario.store)
    = Some (Scenario.command "c1" "A1" 10 false)
  ∧ r2 = commandAck 8 9 10 (Some (Scenario.ack "c1" false)) Scenario.store
  ∧ r2.2 = [].
Proof.
  intros r1 r2. do 3 (split; [reflexivity|]).
  destruct (ack_last_write_wins 5 6 7 8 9 10 (Scenario.ack "c1" true)
              (Scenario.ack "c1" false) Scenario.store (Scenario.oid "c1")
              (Scenario.command "c1" "A1" 10 false)
              eq_refl eq_refl eq_refl eq_refl) as (H1 & H2 & _).
  by split.
Defined.

(** C2 at the scenario: a success is acknowledged for the command that ends
    in c1. *)
Lemma ack_sets_done_and_executedAt_witness :
  ackTarget (Scenario.ack "c1" true) = Some (Scenario.oid "c1")
  ∧ CommandModel.findById (Scenario.oid "c1") (CommandModel.docs Scenario.store)
    = Some (Scenario.command "c1" "A1" 10 false)
  ∧ ∃ c', CommandModel.findById (Scenario.oid "c1")
            (CommandModel.docs
               (commandAck 5 6 7 (Some (Scenario.ack "c1" true)) Scenario.store).1)
          = Some c'
          ∧ CommandModel.done c' = true
          ∧ CommandModel.executedAt c' = Some 5
          ∧ CommandModel.updatedAt c' = 7.
Proof.
  do 2 (split; [reflexivity|]).
  destruct (ack_sets_done_and_executedAt 5 6 7 (Scenario.ack "c1" true)
              Scenario.store (Scenario.oid "c1")
              (Scenario.command "c1" "A1" 10 false) eq_refl eq_refl eq_refl)
    as (c' & H1 & _ & _ & H3 & H4 & H5 & _).
  by exists c'.
Defined.

(** C9 at the scenario: a failure is acknowledged for the command that ends
    in c1, and s1 registers for A1. *)
Lemma failed_command_redelivered_witness :
  let db1 := (commandAck 5 6 7 (Some (Scenario.ack "c1" false)) Scenario.store).1 in
  let s := {| rooms := {[Some "s1"]}; data_deviceId := None |} in
  ackTarget (Scenario.ack "c1" false) = Some (Scenario.oid "c1")
  ∧ AckData.success (Scenario.ack "c1" false) = false
  ∧ truthyStr (Scenario.N "a1") = Some "A1"
  ∧ ∃ c' delay,
      CommandModel.findById (Scenario.oid "c1") (CommandModel.docs db1) = Some c'
      ∧ CommandModel.matchesPending "A1" c'
      ∧ (delay, "s1", c')
        ∈ deliveries Scenario.world (registerDevice Scenario.N 9 "s1" "a1" s db1).2.
Proof.
  intros db1 s. do 3 (split; [reflexivity|]).
  destruct (failed_command_redelivered Scenario.N 5 6 7 9 (Scenario.ack "c1" false)
              Scenario.store (Scenario.oid "c1") "s1" "a1"
              (Scenario.command "c1" "A1" 10 false)
              s Scenario.world eq_refl eq_refl eq_refl eq_refl eq_refl)
    as (c' & l & H1 & _ & H3 & _ & _ & H6 & H7).
  destruct (proj2 H6) as [delay Hd]; [apply H7; vm_compute; lia|].
  by exists c', delay.
Defined.

(** C10 at the scenario: an acknowledgment with an empty [commandId]. *)
Lemma ack_without_commandId_is_noop_witness :
  truthyStr (AckData.commandId Scenario.ackNoId) = None
  ∧ step Scenario.N 5 (CommandAck "s1" (Some Scenario.ackNoId) 6 7) Scenario.world
    = (Scenario.world, []).
Proof.
  split; [done|].
  apply (ack_without_commandId_is_noop Scenario.N 5 6 7 "s1" Scenario.ackNoId
           Scenario.world eq_refl).
Defined.

(** ** More on rooms and registration *)

Section SocketFacts.

Variable normalizeDeviceId : string → option string.

Lemma registerDevice_data now sid rawId d s db0 :
  truthyStr (normalizeDeviceId rawId) = Some d →
  data_deviceId (registerDevice normalizeDeviceId now sid rawId s db0).1 = Some d.
Proof. intros Hd. unfold registerDevice. by rewrite Hd. Qed.

Lemma dataOk_reachable w : reachable normalizeDeviceId w → dataOk w.
Proof.
  induction 1 as [db0|now e w Hr IH].
  - intros sid s. simpl. by rewrite lookup_empty.
  - intros sid s.
    destruct (step_sockets normalizeDeviceId now e w)
      as [->|[(sid' & q & -> & Hn & ->)|[(sid' & raw & s' & -> & Hs' & ->)
                                        |(sid' & -> & ->)]]].
    + apply IH.
    + rewrite lookup_insert. case_decide as Heq; [|apply IH].
      subst sid'. intros [= <-]. unfold onConnection, join.
      destruct (truthyStr q) as [q'|]; simpl.
      * repeat split; [set_solver|set_solver|]. intros _. set_solver.
      * repeat split; [set_solver|set_solver|]. by intros [? ?].
    + rewrite lookup_insert. case_decide as Heq; [|apply IH].
      subst sid'. intros [= <-].
      destruct (IH sid s' Hs') as (Hown & Hsub & Hdata).
      destruct (truthyStr (normalizeDeviceId raw)) as [d|] eqn:Hd.
      * rewrite (registerDevice_rooms _ _ _ _ d), (registerDevice_data _ _ _ d) by done.
        repeat split; [set_solver|set_solver|]. intros _. set_solver.
      * rewrite registerDevice_invalid by done. simpl. done.
    + rewrite lookup_delete. case_decide; [done|apply IH].
Qed.

Lemma step_other_socket now e w sid' :
  subject e ≠ Some sid' →
  sockets (step normalizeDeviceId now e w).1 !! sid' = sockets w !! sid'.
Proof.
  intros Hne.
  destruct (step_sockets normalizeDeviceId now e w)
    as [->|[(sid & q & -> & Hn & ->)|[(sid & raw & s & -> & Hs & ->)
                                      |(sid & -> & ->)]]]; [done|..];
    simpl in Hne.
  - apply lookup_insert_ne. congruence.
  - apply lookup_insert_ne. congruence.
  - apply lookup_delete_ne. congruence.
Qed.

Lemma membersOf_ext d w w' sid :
  sockets w' !! sid = sockets w !! sid →
  sid ∈ membersOf d w' ↔ sid ∈ membersOf d w.
Proof. intros Heq. rewrite !elem_of_membersOf. by rewrite Heq. Qed.

Lemma emitted_imap sid (delay : nat → Z) l :
  emitted (imap (λ i c, SetTimeout (SendPending sid c) (delay i)) l) = [].
Proof.
  revert delay. induction l as [|c l IH]; intros delay; [done|].
  rewrite imap_cons. apply (IH (delay ∘ S)).
Qed.

Lemma emitted_staggered sid l : emitted (staggered sid l) = [].
Proof. apply (emitted_imap sid (λ i, Z.of_nat i * 2000)). Qed.

Lemma registerDevice_out now sid rawId d s db0 :
  truthyStr (normalizeDeviceId rawId) = Some d →
  ∃ data,
    (registerDevice normalizeDeviceId now sid rawId s db0).2
    = Emit sid (MsgRegistered data) :: afterConfirmation sid d db0
    ∧ data = {| RegistrationData.deviceId := d;
                RegistrationData.timestamp := now;
                RegistrationData.socketId := sid;
                RegistrationData.rooms :=
                  rooms (registerDevice normalizeDeviceId now sid rawId s db0).1;
                RegistrationData.success := true;
                RegistrationData.message :=
                  "Successfully registered device " +:+ d |}.
Proof. intros Hd. unfold registerDevice. rewrite Hd. simpl. eauto. Qed.

Lemma emitted_afterConfirmation sid d db0 :
  emitted (afterConfirmation sid d db0) = [].
Proof.
  unfold afterConfirmation.
  destruct (CommandModel.findPending d db0) as [l|]; [|done].
  unfold emitted. rewrite omap_app. fold (emitted (staggered sid l)).
  by rewrite emitted_staggered.
Qed.

End SocketFacts.

(** X1. In every state the server reaches, a connected socket is in the room
    of its own id and in no other room but the one [socket.data.deviceId]
    names: the socket is a member of the room of the device id stored in its
    data, and a device room it is a member of is the one its data names. *)
Theorem socket_data_names_device_room
    (normalizeDeviceId : string → option string) (w : World)
    (sid : string) (s : Socket) :
  reachable normalizeDeviceId w →
  sockets w !! sid = Some s →
  Some sid ∈ rooms s
  ∧ rooms s ⊆ {[Some sid; data_deviceId s]}
  ∧ (∀ d, data_deviceId s = Some d → sid ∈ membersOf d w)
  ∧ (∀ d, d ≠ sid → sid ∈ membersOf d w → data_deviceId s = Some d).
Proof.
  intros Hr Hs.
  destruct (dataOk_reachable normalizeDeviceId w Hr sid s Hs) as (Hown & Hsub & Hdata).
  repeat split; [done|done| |].
  - intros d Hd. apply elem_of_membersOf. exists s. split; [done|].
    rewrite <- Hd. apply Hdata. by rewrite Hd.
  - intros d Hne Hin. apply elem_of_membersOf in Hin as (s' & Hs' & Hin).
    rewrite Hs in Hs'. injection Hs' as <-.
    pose proof (Hsub _ Hin) as H1.
    rewrite elem_of_union, !elem_of_singleton in H1.
    destruct H1 as [[= ?]|H1]; [done|]. done.
Qed.

(** X2. An event changes the state of no socket but its own: the rooms and
    the data of every other socket, and so its membership of every room, are
    as before; and only a connection, a registration and a disconnection
    change the sockets at all. *)
Theorem event_changes_own_socket_only
    (normalizeDeviceId : string → option string) (now : Z) (e : Event)
    (w : World) (sid' : string) :
  subject e ≠ Some sid' →
  sockets (step normalizeDeviceId now e w).1 !! sid' = sockets w !! sid'
  ∧ (∀ d, sid' ∈ membersOf d (step normalizeDeviceId now e w).1
          ↔ sid' ∈ membersOf d w)
  ∧ match e with
    | Connection _ _ | RegisterDevice _ _ | Disconnect _ => True
    | _ => sockets (step normalizeDeviceId now e w).1 = sockets w
    end.
Proof.
  intros Hne.
  pose proof (step_other_socket normalizeDeviceId now e w sid' Hne) as Heq.
  split; [done|]. split; [intros d; by apply membersOf_ext|].
  destruct e as [sid q|sid rawId|sid data later stamp|sid|sid|t|sid|db']; simpl; try done;
    destruct (sockets w !! sid); simpl; try done.
  by destruct (commandAck _ _ _ _ _).
Qed.

(** X3. In a state the server reaches, a successful registration sends the
    registering socket one message, the confirmation, which names the device,
    the socket and exactly two rooms, the socket's own and the device's; the
    socket is then in these two rooms and its data holds the device id. *)
Theorem registered_confirmation_rooms
    (normalizeDeviceId : string → option string) (now : Z)
    (sid rawId d : string) (s : Socket) (w : World) :
  reachable normalizeDeviceId w →
  sockets w !! sid = Some s →
  truthyStr (normalizeDeviceId rawId) = Some d →
  let r := step normalizeDeviceId now (RegisterDevice sid rawId) w in
  emitted r.2
  = [(sid, MsgRegistered
             {| RegistrationData.deviceId := d;
                RegistrationData.timestamp := now;
                RegistrationData.socketId := sid;
                RegistrationData.rooms := {[Some sid; Some d]};
                RegistrationData.success := true;
                RegistrationData.message :=
                  "Successfully registered device " +:+ d |})]
  ∧ sockets r.1 !! sid
    = Some {| rooms := {[Some sid; Some d]}; data_deviceId := Some d |}.
Proof.
  intros Hr Hs Hd r.
  destruct (dataOk_reachable normalizeDeviceId w Hr sid s Hs) as (Hown & _ & _).
  assert (Hrooms : rooms (registerDevice normalizeDeviceId now sid rawId s (db w)).1
                   = {[Some sid; Some d]}).
  { rewrite (registerDevice_rooms _ _ _ _ d) by done. set_solver. }
  pose proof (registerDevice_data normalizeDeviceId now sid rawId d s (db w) Hd) as Hdata.
  destruct (registerDevice_out normalizeDeviceId now sid rawId d s (db w) Hd)
    as (data & Hout & ->).
  subst r. simpl. rewrite Hs.
  destruct (registerDevice _ _ _ _ _ _) as [s' out]. simpl in *. subst out.
  split.
  - unfold emitted. simpl. fold (emitted (afterConfirmation sid d (db w))).
    by rewrite emitted_afterConfirmation, Hrooms.
  - rewrite lookup_insert_eq. f_equal. destruct s'. simpl in *. by subst.
Qed.

(** X4. Registering again under the same device id leaves the server state
    as the first registration left it, and sets the same timers once more: the
    whole pending backlog is delivered a second time. *)
Theorem reregistration_same_id_repeats_dispatch
    (normalizeDeviceId : string → option string) (now1 now2 : Z)
    (sid raw1 raw2 d : string) (w : World) :
  is_Some (sockets w !! sid) →
  truthyStr (normalizeDeviceId raw1) = Some d →
  truthyStr (normalizeDeviceId raw2) = Some d →
  let r1 := step normalizeDeviceId now1 (RegisterDevice sid raw1) w in
  let r2 := step normalizeDeviceId now2 (RegisterDevice sid raw2) r1.1 in
  r2.1 = r1.1
  ∧ timers r2.2 = timers r1.2
  ∧ (∀ w', deliveries w' r2.2 = deliveries w' r1.2).
Proof.
  intros [s Hs] H1 H2 r1 r2.
  destruct (step_register_lookup normalizeDeviceId now1 sid raw1 d s w Hs H1)
    as (s1 & Hs1 & Hr1).
  fold r1 in Hs1.
  assert (Hdb : db r1.1 = db w).
  { subst r1. simpl. rewrite Hs. by destruct (registerDevice _ _ _ _ _ _). }
  assert (Hd1 : data_deviceId s1 = Some d).
  { subst r1. simpl in Hs1. rewrite Hs in Hs1.
    pose proof (registerDevice_data normalizeDeviceId now1 sid raw1 d s (db w) H1) as Hx.
    destruct (registerDevice _ _ _ _ _ _) as [s' out]. simpl in *.
    rewrite lookup_insert_eq in Hs1. by injection Hs1 as <-. }
  assert (Hout1 : ∃ data, r1.2 = Emit sid (MsgRegistered data)
                                   :: afterConfirmation sid d (db w)).
  { destruct (registerDevice_out normalizeDeviceId now1 sid raw1 d s (db w) H1)
      as (data & Hout & _). exists data.
    subst r1. simpl. rewrite Hs.
    by destruct (registerDevice _ _ _ _ _ _). }
  assert (Hout2 : ∃ data, r2.2 = Emit sid (MsgRegistered data)
                                   :: afterConfirmation sid d (db w)
                          ∧ sockets r2.1 = <[sid :=
                              (registerDevice normalizeDeviceId now2 sid raw2 s1
                                 (db r1.1)).1]> (sockets r1.1)
                          ∧ db r2.1 = db r1.1).
  { destruct (registerDevice_out normalizeDeviceId now2 sid raw2 d s1 (db r1.1) H2)
      as (data & Hout & _). exists data.
    subst r2. simpl. rewrite Hs1. rewrite Hdb in *.
    by destruct (registerDevice _ _ _ _ _ _). }
  destruct Hout1 as (data1 & Hout1). destruct Hout2 as (data2 & Hout2 & Hso2 & Hdb2).
  split; [|by rewrite Hout1, Hout2].
  assert (Hs2 : (registerDevice normalizeDeviceId now2 sid raw2 s1 (db r1.1)).1 = s1).
  { pose proof (registerDevice_rooms normalizeDeviceId now2 sid raw2 d s1 (db r1.1) H2)
      as Hr2.
    pose proof (registerDevice_data normalizeDeviceId now2 sid raw2 d s1 (db r1.1) H2)
      as Hx2.
    destruct (registerDevice _ _ _ _ _ _) as [s2 out2]. simpl in *.
    destruct s1 as [rs1 dd1], s2 as [rs2 dd2]. simpl in *. subst.
    f_equal. set_solver. }
  destruct (r2.1) as [so2 db2], (r1.1) as [so1 db1]. simpl in *. subst.
  f_equal. rewrite Hs2. by apply insert_id.
Qed.

(** X5. The room verification that a successful registration schedules finds
    the registering socket in the room when it fires at once, and whenever the
    socket is still a member of the device's room: it then logs no failure. *)
Theorem room_verification_after_registration
    (normalizeDeviceId : string → option string) (now : Z)
    (sid rawId d : string) (w : World) :
  is_Some (sockets w !! sid) →
  truthyStr (normalizeDeviceId rawId) = Some d →
  let r := step normalizeDeviceId now (RegisterDevice sid rawId) w in
  (3000, VerifyRoom sid d) ∈ timers r.2
  ∧ runTask (VerifyRoom sid d) r.1 = []
  ∧ (∀ w', sid ∈ membersOf d w' → runTask (VerifyRoom sid d) w' = []).
Proof.
  intros [s Hs] Hd r.
  assert (Hok : ∀ w', sid ∈ membersOf d w' → runTask (VerifyRoom sid d) w' = []).
  { intros w' Hin. simpl. case_decide as He; [|done]. rewrite He in Hin.
    by apply not_elem_of_empty in Hin. }
  split; [|split; [|done]].
  - destruct (registerDevice_out normalizeDeviceId now sid rawId d s (db w) Hd)
      as (data & Hout & _).
    subst r. simpl. rewrite Hs.
    destruct (registerDevice _ _ _ _ _ _) as [s' out]. simpl in *. subst out.
    unfold timers, afterConfirmation. simpl. rewrite omap_app. simpl.
    apply elem_of_app. right. apply list_elem_of_here.
  - apply Hok. by apply (step_register_member normalizeDeviceId now sid rawId d s w).
Qed.

(** X6. A disconnection takes the socket out of every room and leaves the
    other sockets and the store as they are; its heartbeat is cleared.  A room
    verification that fires afterwards logs the failure exactly when no other
    socket was in the device's room. *)
Theorem disconnect_leaves_rooms
    (normalizeDeviceId : string → option string) (now : Z)
    (sid : string) (w : World) :
  is_Some (sockets w !! sid) →
  let r := step normalizeDeviceId now (Disconnect sid) w in
  r.2 = [ClearInterval sid]
  ∧ db r.1 = db w
  ∧ (∀ d, membersOf d r.1 = membersOf d w ∖ {[sid]})
  ∧ (∀ d, runTask (VerifyRoom sid d) r.1 = [Console (ErrorRoomVerificationFailed d)]
          ↔ membersOf d w ⊆ {[sid]}).
Proof.
  intros [s Hs] r. subst r. simpl. rewrite Hs. simpl.
  assert (Hm : ∀ d, membersOf d {| sockets := delete sid (sockets w); db := db w |}
                    = membersOf d w ∖ {[sid]}).
  { intros d. unfold membersOf. simpl. by rewrite map_filter_delete, dom_delete_L. }
  repeat split; try done.
  - case_decide as He; [|done]. intros _. rewrite Hm in He.
    intros x Hx. destruct (decide (x = sid)) as [->|Hne]; [set_solver|].
    assert (x ∈ membersOf d w ∖ {[sid]}) as Hin by set_solver.
    rewrite He in Hin. by apply not_elem_of_empty in Hin.
  - intros Hsub. rewrite decide_True; [done|]. rewrite Hm. set_solver.
Qed.

(** X7. A connection whose handshake names a device is joined to the room of
    whatever the normalizer returns, without validation: nothing is sent to
    it, no timer is set for it (no pending command is dispatched), only its
    heartbeat is started; the store is not read. *)
Theorem handshake_join_unvalidated
    (normalizeDeviceId : string → option string) (now : Z)
    (sid q : string) (query : option string) (w : World) :
  sockets w !! sid = None →
  truthyStr query = Some q →
  let r := step normalizeDeviceId now (Connection sid query) w in
  r.2 = [SetInterval sid 30000]
  ∧ sockets r.1 !! sid
    = Some {| rooms := {[Some sid; normalizeDeviceId q]};
              data_deviceId := normalizeDeviceId q |}
  ∧ (∀ d, normalizeDeviceId q = Some d → sid ∈ membersOf d r.1)
  ∧ db r.1 = db w.
Proof.
  intros Hs Hq r. subst r. simpl. rewrite Hs. unfold onConnection. rewrite Hq.
  simpl.
  assert (Hl : <[sid := {| rooms := join (normalizeDeviceId q) {[Some sid]};
                           data_deviceId := normalizeDeviceId q |}]> (sockets w) !! sid
               = Some {| rooms := {[Some sid; normalizeDeviceId q]};
                         data_deviceId := normalizeDeviceId q |}).
  { rewrite lookup_insert_eq. do 2 f_equal. unfold join. set_solver. }
  repeat split; try done.
  intros d Hd. apply elem_of_membersOf. eexists. split; [exact Hl|].
  simpl. rewrite Hd. set_solver.
Qed.

(** ** More on the dispatch and on acknowledgments *)

Module StoreFacts.
Import CommandModel.

Lemma updateById_ids id u l : _id <$> (updateById id u l).1 = _id <$> l.
Proof.
  induction l as [|c l IH]; [done|]. simpl. case_decide; [done|].
  destruct (updateById id u l) as [l' o]. simpl in *.
  by f_equal.
Qed.

Lemma updateById_others id u l i c :
  l !! i = Some c → _id c ≠ id → (updateById id u l).1 !! i = Some c.
Proof.
  revert i. induction l as [|c0 l IH]; intros i; [done|]. simpl.
  case_decide as Hid.
  - destruct i as [|i]; simpl; [|done]. intros [= ->]. done.
  - specialize (IH (pred i)).
    destruct (updateById id u l) as [l' o]. simpl in *.
    destruct i as [|i]; simpl; [done|]. apply IH.
Qed.

Lemma updateById_findById_ne id id' u l :
  id' ≠ id → findById id' (updateById id u l).1 = findById id' l.
Proof.
  intros Hne. induction l as [|c l IH]; [done|]. simpl. case_decide as Hid.
  - simpl. rewrite !UpdateFacts.findById_cons. simpl.
    rewrite !decide_False by congruence. done.
  - destruct (updateById id u l) as [l' o]. simpl in *.
    rewrite !UpdateFacts.findById_cons. by rewrite IH.
Qed.

(** When the ids are unique, a document of the updated id in the result is
    the updated one. *)
Lemma updateById_unique id u l x :
  NoDup (_id <$> l) → x ∈ (updateById id u l).1 → _id x = id →
  done x = u_done u.
Proof.
  induction l as [|c l IH]; simpl; [by intros _ ?%elem_of_nil|].
  rewrite NoDup_cons. intros [Hnin Hnd]. case_decide as Hid.
  - simpl. intros [->|Hin]%elem_of_cons Hx; [done|].
    destruct Hnin. rewrite Hid, <- Hx. by apply list_elem_of_fmap_2.
  - specialize (IH Hnd).
    destruct (updateById id u l) as [l' o]. simpl in *.
    intros [->|Hin]%elem_of_cons Hx; [done|]. by apply IH.
Qed.

Lemma truthyStr_not_empty v : truthyStr v ≠ Some EmptyString.
Proof. destruct v as [s|]; simpl; [|done]. case_decide; congruence. Qed.

Lemma timers_imap sid (delay : nat → Z) (l : list Command) :
  timers (imap (λ i c, SetTimeout (SendPending sid c) (delay i)) l)
  = imap (λ i c, (delay i, SendPending sid c)) l.
Proof.
  revert delay. induction l as [|c l IH]; intros delay; [done|].
  rewrite !imap_cons. unfold timers. simpl. f_equal. apply (IH (delay ∘ S)).
Qed.

End StoreFacts.

Module PendingQuery.
Import CommandModel QueryFacts.

(** X8. The cap of the pending query keeps the newest: the query answers
    with 20 commands, or with all the pending ones when they are fewer, and
    every pending command it leaves out is at most as new as every command it
    returns. *)
Theorem pending_cap_keeps_newest (d : string) (db0 : Store)
    (l : list Command) :
  findPending d db0 = Resolved l →
  let pending := filter (matchesPending d) (docs db0) in
  length l = (20 `min` length pending)%nat
  ∧ ∃ rest, l ++ rest ≡ₚ pending
            ∧ ∀ x y, x ∈ l → y ∈ rest →
                     createdAt y ≤ createdAt x.
Proof.
  intros Hl pending. unfold findPending in Hl.
  destruct (up db0); [|done]. injection Hl as <-. fold pending.
  set (sorted := merge_sort newestFirst pending).
  split.
  - rewrite length_take. unfold sorted. by rewrite merge_sort_Permutation.
  - exists (drop 20 sorted). split.
    + rewrite take_drop. apply merge_sort_Permutation.
    + intros x y Hx Hy.
      assert (Hs : StronglySorted newestFirst
                     (take 20 sorted ++ drop 20 sorted)).
      { rewrite take_drop. apply StronglySorted_merge_sort; apply _. }
      apply (StronglySorted_app_1_elem_of _ _ _ x y Hs Hx Hy).
Qed.

End PendingQuery.

(** X9. A successful registration sets one timer for each command the query
    returns, at 0, 2000, 4000, ... ms, and then the verification timer at 3000
    ms: at most 21 timers, none later than 38000 ms; with nothing pending, the
    verification timer alone. *)
Theorem dispatch_timer_bounds
    (normalizeDeviceId : string → option string) (now : Z)
    (sid rawId d : string) (s : Socket) (db0 : CommandModel.Store)
    (l : list CommandModel.Command) :
  truthyStr (normalizeDeviceId rawId) = Some d →
  CommandModel.findPending d db0 = CommandModel.Resolved l →
  let out := (registerDevice normalizeDeviceId now sid rawId s db0).2 in
  timers out
  = imap (λ i c, (Z.of_nat i * 2000, SendPending sid c)) l
    ++ [(3000, VerifyRoom sid d)]
  ∧ (length (timers out) ≤ 21)%nat
  ∧ (∀ delay t, (delay, t) ∈ timers out → 0 ≤ delay ≤ 38000)
  ∧ (l = [] → timers out = [(3000, VerifyRoom sid d)]).
Proof.
  intros Hd Hl out.
  assert (Hlen : (length l ≤ 20)%nat).
  { by destruct (QueryFacts.findPending_spec d db0 l Hl) as [? _]. }
  assert (Ht : timers out
               = imap (λ i c, (Z.of_nat i * 2000, SendPending sid c)) l
                 ++ [(3000, VerifyRoom sid d)]).
  { destruct (registerDevice_out normalizeDeviceId now sid rawId d s db0 Hd)
      as (data & Hout & _).
    subst out. rewrite Hout. unfold afterConfirmation. rewrite Hl.
    unfold timers. simpl. rewrite omap_app. simpl. f_equal.
    apply (StoreFacts.timers_imap sid (λ i, Z.of_nat i * 2000)). }
  split; [done|]. rewrite Ht. split; [|split].
  - rewrite length_app, length_imap. simpl. lia.
  - intros delay t [Hin|Hin]%elem_of_app.
    + apply elem_of_lookup_imap in Hin as (i & c & [= -> ->] & Hi).
      apply lookup_lt_Some in Hi. lia.
    + apply list_elem_of_singleton in Hin as [= -> ->]. lia.
  - by intros ->.
Qed.

(** X10. An acknowledgment touches no command but the one whose ObjectId
    its [commandId] is cast to: the ids of the collection are the same in the
    same order, every document of another id is stored as it was, at the same
    place, and a look-up by another id finds what it found before. *)
Theorem ack_touches_one_command (now later stamp : Z) (a : AckData.t)
    (db0 : CommandModel.Store) :
  let db1 := (commandAck now later stamp (Some a) db0).1 in
  CommandModel._id <$> CommandModel.docs db1
  = CommandModel._id <$> CommandModel.docs db0
  ∧ (∀ i c, CommandModel.docs db0 !! i = Some c →
            ackTarget a ≠ Some (CommandModel._id c) →
            CommandModel.docs db1 !! i = Some c)
  ∧ (∀ id', ackTarget a ≠ Some id' →
            CommandModel.findById id' (CommandModel.docs db1)
            = CommandModel.findById id' (CommandModel.docs db0)).
Proof.
  intros db1. subst db1.
  destruct (CommandModel.up db0) eqn:Hup; [|by rewrite commandAck_down].
  destruct (ackTarget a) as [id|] eqn:Ht; [|by rewrite commandAck_no_target].
  apply ackTarget_Some in Ht as (cid & Hid & Hc).
  rewrite (commandAck_eq now later stamp a db0 cid id) by done. simpl.
  repeat split.
  - apply StoreFacts.updateById_ids.
  - intros i c Hi Hne. apply StoreFacts.updateById_others; [done|congruence].
  - intros id' Hne. apply StoreFacts.updateById_findById_ne. congruence.
Qed.

(** X11. An acknowledgment that cannot be applied, because its [commandId]
    is no ObjectId, because the store does not answer, or because no command
    has the id, leaves the store as it is and is only logged: the warning of
    the command not found when the id is an ObjectId and the store answers,
    the error line otherwise. *)
Theorem ack_not_applied_is_logged (now later stamp : Z) (a : AckData.t)
    (db0 : CommandModel.Store) (cid : string) :
  truthyStr (AckData.commandId a) = Some cid →
  (∀ id, CommandModel.castObjectId cid = Some id →
         CommandModel.up db0 = false
         ∨ CommandModel.findById id (CommandModel.docs db0) = None) →
  commandAck now later stamp (Some a) db0
  = (db0, [Console (match CommandModel.castObjectId cid with
                    | Some _ => if CommandModel.up db0
                                then WarnCommandNotFound cid
                                else ErrorProcessingAck
                    | None => ErrorProcessingAck
                    end)]).
Proof.
  intros Hid Hor.
  destruct (CommandModel.castObjectId cid) as [id|] eqn:Hc;
    [|by apply (commandAck_rejected now later stamp a db0 cid); auto].
  destruct (CommandModel.up db0) eqn:Hup;
    [|by apply (commandAck_rejected now later stamp a db0 cid); auto].
  destruct (Hor id eq_refl) as [?|Hnone]; [done|].
  rewrite (commandAck_eq now later stamp a db0 cid id) by done.
  rewrite (UpdateFacts.updateById_missing id _ _ Hnone). simpl.
  destruct db0. simpl in *. by subst.
Qed.

(** X12. The acknowledgment handler checks neither the sender nor the
    [deviceId] of the payload: the same acknowledgment from any connected
    socket, with any [deviceId], gives the same store and the same log; and
    the handler sends nothing and sets no timer. *)
Theorem ack_ignores_sender
    (normalizeDeviceId : string → option string) (now later stamp : Z)
    (sid sid' : string) (a : AckData.t) (dev : option string) (w : World) :
  is_Some (sockets w !! sid) →
  is_Some (sockets w !! sid') →
  step normalizeDeviceId now (CommandAck sid (Some a) later stamp) w
  = step normalizeDeviceId now
         (CommandAck sid'
            (Some {| AckData.commandId := AckData.commandId a;
                     AckData.success := AckData.success a;
                     AckData.error := AckData.error a;
                     AckData.deviceId := dev;
                     AckData.ussdCode := AckData.ussdCode a;
                     AckData.message := AckData.message a |}) later stamp) w
  ∧ emitted (step normalizeDeviceId now (CommandAck sid (Some a) later stamp) w).2
    = []
  ∧ timers (step normalizeDeviceId now (CommandAck sid (Some a) later stamp) w).2
    = [].
Proof.
  intros [s Hs] [s' Hs']. simpl. rewrite Hs, Hs'. split; [done|].
  unfold commandAck.
  destruct (truthyStr (AckData.commandId a)); [|done].
  by destruct (CommandModel.findByIdAndUpdate _ _ _ _) as [[db' [c|]]|].
Qed.

(** X13. An acknowledgment of a known command replaces the stored result
    fields by those it carries: [ussdCode] and [executionMessage] are the
    payload's when these are non-empty strings and are null otherwise, so that
    a result stored before is erased and an empty string is never stored. *)
Theorem ack_replaces_result_fields (now later stamp : Z) (a : AckData.t)
    (db0 : CommandModel.Store) (id : string) (c : CommandModel.Command) :
  ackTarget a = Some id →
  CommandModel.up db0 = true →
  CommandModel.findById id (CommandModel.docs db0) = Some c →
  ∃ c', CommandModel.findById id
          (CommandModel.docs (commandAck now later stamp (Some a) db0).1)
        = Some c'
        ∧ CommandModel.ussdCode c' = truthyStr (AckData.ussdCode a)
        ∧ CommandModel.executionMessage c' = truthyStr (AckData.message a)
        ∧ CommandModel.ussdCode c' ≠ Some EmptyString
        ∧ CommandModel.executionMessage c' ≠ Some EmptyString.
Proof.
  intros Ht Hup Hf.
  destruct (commandAck_found now later stamp a db0 id c Ht Hup Hf) as [_ Hf'].
  eexists. split; [exact Hf'|]. simpl. unfold orNull.
  repeat split; apply StoreFacts.truthyStr_not_empty.
Qed.

Section Redelivery.

Variable normalizeDeviceId : string → option string.

(** What a registration delivers is in the answer of its pending query. *)
Lemma deliveries_register_elem w now sid rawId s db0 delay r x :
  (delay, r, x) ∈ deliveries w (registerDevice normalizeDeviceId now sid rawId s db0).2 →
  ∃ d l, truthyStr (normalizeDeviceId rawId) = Some d
         ∧ CommandModel.findPending d db0 = CommandModel.Resolved l
         ∧ x ∈ l.
Proof.
  destruct (truthyStr (normalizeDeviceId rawId)) as [d|] eqn:Hd.
  - destruct (CommandModel.findPending d db0) as [l|] eqn:Hl.
    + rewrite (deliveries_register normalizeDeviceId w now sid rawId d s db0 l Hd Hl).
      intros (i & y & [= _ _ ->] & Hi)%elem_of_lookup_imap.
      exists d, l. repeat split; [done|]. by apply list_elem_of_lookup_2 in Hi.
    + unfold registerDevice. rewrite Hd, Hl. unfold deliveries. simpl.
      case_decide; by intros ?%elem_of_nil.
  - rewrite registerDevice_invalid by done. by intros ?%elem_of_nil.
Qed.

End Redelivery.

(** X14. When the ids of the collection are unique, a command acknowledged
    with success is not in the answer of the pending query on the store as the
    acknowledgment leaves it, for any device, and a registration that reads
    this store delivers no command of that id. *)
Theorem acknowledged_command_not_redelivered
    (normalizeDeviceId : string → option string) (now later stamp now' : Z)
    (a : AckData.t) (db0 : CommandModel.Store) (id : string) :
  ackTarget a = Some id →
  AckData.success a = true →
  NoDup (CommandModel._id <$> CommandModel.docs db0) →
  let db1 := (commandAck now later stamp (Some a) db0).1 in
  (∀ d l x, CommandModel.findPending d db1 = CommandModel.Resolved l →
            x ∈ l → CommandModel._id x ≠ id)
  ∧ (∀ w sid rawId s delay r x,
        (delay, r, x)
        ∈ deliveries w (registerDevice normalizeDeviceId now' sid rawId s db1).2 →
        CommandModel._id x ≠ id).
Proof.
  intros Ht Hok Hnd db1.
  assert (Hq : ∀ d l x, CommandModel.findPending d db1 = CommandModel.Resolved l →
                        x ∈ l → CommandModel._id x ≠ id).
  { intros d l x Hl Hx Hxid.
    assert (Hup : CommandModel.up db0 = true).
    { rewrite <- (commandAck_up now later stamp (Some a) db0).
      by apply (QueryFacts.findPending_up d _ l). }
    destruct (QueryFacts.findPending_spec d _ l Hl) as (_ & Hall & _ & Hsub & _).
    assert (Hin : x ∈ filter (CommandModel.matchesPending d) (CommandModel.docs db1))
      by (by eapply elem_of_submseteq).
    apply list_elem_of_filter in Hin as [[_ Hdone] Hin].
    apply ackTarget_Some in Ht as (cid & Hid & Hc).
    subst db1. rewrite (commandAck_eq now later stamp a db0 cid id) in Hin by done.
    simpl in Hin.
    pose proof (StoreFacts.updateById_unique id _ _ x Hnd Hin Hxid) as Hd.
    simpl in Hd. congruence. }
  split; [exact Hq|].
  intros w sid rawId s delay r x Hdel.
  apply deliveries_register_elem in Hdel as (d & l & _ & Hl & Hx).
  by apply (Hq d l x).
Qed.

(** ** The HTTP error handler and the admin login *)

Module ErrorHandlerFacts.
Import ErrorHandler.

Lemma append_cons a s t : String a s +:+ t = String a (s +:+ t).
Proof. reflexivity. Qed.

Lemma append_nil t : EmptyString +:+ t = t.
Proof. reflexivity. Qed.

Lemma prefix_spec n s : String.prefix n s = true ↔ ∃ post, s = n +:+ post.
Proof.
  revert n. induction s as [|b s IH]; intros [|a n]; simpl.
  - split; [by exists EmptyString|done].
  - split; [done|]. intros [post Hp]. by rewrite append_cons in Hp.
  - split; [by eexists|done].
  - destruct (ascii_dec a b) as [->|Hne].
    + rewrite IH. split; intros [post Hp]; exists post;
        rewrite append_cons in *; congruence.
    + split; [done|]. intros [post Hp]. rewrite append_cons in Hp. congruence.
Qed.

Lemma includes_nil n : includes n EmptyString = String.prefix n EmptyString.
Proof. simpl. apply orb_false_r. Qed.

Lemma includes_cons n b s :
  includes n (String b s) = String.prefix n (String b s) || includes n s.
Proof. reflexivity. Qed.

(** [includes] is the substring test. *)
Lemma includes_spec n s :
  includes n s = true ↔ ∃ pre post, s = pre +:+ n +:+ post.
Proof.
  induction s as [|b s IH].
  - rewrite includes_nil, prefix_spec. split.
    + intros [post Hp]. by exists EmptyString, post.
    + intros (pre & post & Hp). destruct pre as [|a pre].
      * by exists post.
      * by rewrite append_cons in Hp.
  - rewrite includes_cons, orb_true_iff, IH, prefix_spec. split.
    + intros [[post Hp]|(pre & post & Hp)].
      * by exists EmptyString, post.
      * exists (String b pre), post. rewrite append_cons. by rewrite Hp.
    + intros (pre & post & Hp). destruct pre as [|a pre].
      * left. by exists post.
      * right. exists pre, post. rewrite append_cons in Hp. congruence.
Qed.

End ErrorHandlerFacts.

(** X15. Unless [NODE_ENV] is [development], the answer of the error handler
    does not carry the message of the error: its [message] is one of three
    fixed texts. *)
Theorem error_reply_hides_message (NODE_ENV : option string) (now : Z)
    (error : ErrorHandler.Error) (r : ErrorHandler.Reply) :
  NODE_ENV ≠ Some "development" →
  ErrorHandler.globalErrorHandler NODE_ENV now error = ErrorHandler.Sent r →
  ErrorHandler.body_message r
  ∈ [Some "The request payload is too large";
     Some "Request body contains invalid JSON";
     Some "Something went wrong"].
Proof.
  intros Henv. unfold ErrorHandler.globalErrorHandler.
  rewrite (decide_False (P := NODE_ENV = Some "development")) by done.
  repeat case_decide; try destruct (ErrorHandler.message error) as [m|];
    try destruct (ErrorHandler.includes "JSON" m);
    intros [= <-]; simpl; rewrite !elem_of_cons; auto.
Qed.

(** X16. The error handler answers 413 to a too-large payload whatever else
    the error holds.  Otherwise it answers Invalid JSON exactly on a
    SyntaxError whose message contains JSON; it faults itself exactly on a
    SyntaxError that has no message and, when it is not the Invalid JSON case,
    on a status that is not within 100..999; and in the remaining cases it
    answers with the status of the error, or 500 when the error has none or has
    0. *)
Theorem error_handler_outcomes (NODE_ENV : option string) (now : Z)
    (error : ErrorHandler.Error) :
  let out := ErrorHandler.globalErrorHandler NODE_ENV now error in
  let status := ErrorHandler.statusOr500 (ErrorHandler.status error) in
  let invalidJson :=
    ErrorHandler.name error = Some "SyntaxError"
    ∧ ∃ pre post, ErrorHandler.message error = Some (pre +:+ "JSON" +:+ post) in
  (ErrorHandler.type error = Some "entity.too.large" →
   ∃ r, out = ErrorHandler.Sent r ∧ ErrorHandler.code r = 413
        ∧ ErrorHandler.body_error r = "Request too large")
  ∧ ((∃ r, out = ErrorHandler.Sent r ∧ ErrorHandler.code r = 400
           ∧ ErrorHandler.body_error r = "Invalid JSON")
     ↔ ErrorHandler.type error ≠ Some "entity.too.large" ∧ invalidJson)
  ∧ (out = ErrorHandler.Thrown
     ↔ ErrorHandler.type error ≠ Some "entity.too.large"
       ∧ (ErrorHandler.name error = Some "SyntaxError"
          ∧ ErrorHandler.message error = None
          ∨ ¬ invalidJson ∧ ¬ 100 ≤ status ≤ 999))
  ∧ (∀ r, out = ErrorHandler.Sent r →
          ErrorHandler.body_error r = "Internal server error" →
          ErrorHandler.code r = status
          ∧ 100 ≤ ErrorHandler.code r ≤ 999
          ∧ (ErrorHandler.status error = Some (ErrorHandler.code r)
             ∨ ErrorHandler.code r = 500
               ∧ (ErrorHandler.status error = None
                  ∨ ErrorHandler.status error = Some 0))).
Proof.
  intros out status invalidJson.
  assert (Hst : ErrorHandler.status error = Some status
                ∨ status = 500 ∧ (ErrorHandler.status error = None
                                  ∨ ErrorHandler.status error = Some 0)).
  { subst status. destruct (ErrorHandler.status error) as [n|]; simpl; [|by auto].
    case_decide; subst; auto. }
  assert (Hj : invalidJson
               ↔ ErrorHandler.name error = Some "SyntaxError"
                 ∧ ∃ m, ErrorHandler.message error = Some m
                        ∧ ErrorHandler.includes "JSON" m = true).
  { subst invalidJson. split.
    - intros (Hn & pre & post & Hm). split; [done|]. eexists. split; [done|].
      apply ErrorHandlerFacts.includes_spec. eauto.
    - intros (Hn & m & Hm & Hi). split; [done|].
      apply ErrorHandlerFacts.includes_spec in Hi as (pre & post & ->). eauto. }
  clearbody invalidJson.
  subst out. unfold ErrorHandler.globalErrorHandler. fold status.
  destruct (decide (ErrorHandler.type error = Some "entity.too.large")) as [Ht|Ht].
  { split; [intros _; by eexists|]. split; [|split].
    - split; [by intros (r & [= <-] & ? & ?)|by intros [? _]].
    - split; [done|by intros [? _]].
    - by intros r [= <-]. }
  split; [done|].
  destruct (decide (ErrorHandler.name error = Some "SyntaxError")) as [Hn|Hn].
  - destruct (ErrorHandler.message error) as [m|] eqn:Hm.
    + destruct (ErrorHandler.includes "JSON" m) eqn:Hi.
      * assert (invalidJson) as Hinv by (apply Hj; eauto).
        split; [split; [done|by eexists]|]. split; [|by intros r [= <-]].
        split; [done|]. intros (_ & [[_ ?]|[? _]]); done.
      * assert (¬ invalidJson) as Hinv.
        { rewrite Hj. intros (_ & m' & [= <-] & ?). congruence. }
        case_decide as Hr.
        -- split; [split; [by intros (r & [= <-] & _ & ?)|by intros [_ ?]]|].
           split; [split; [done|]; intros (_ & [[_ ?]|[_ ?]]); done|].
           intros r [= <-] _. simpl. done.
        -- split; [split; [by intros (r & ? & _)|by intros [_ ?]]|].
           split; [split; [auto|done]|done].
    + assert (¬ invalidJson) as Hinv.
      { rewrite Hj. by intros (_ & m' & ? & _). }
      split; [split; [by intros (r & ? & _)|by intros [_ ?]]|].
      split; [split; [auto|done]|done].
  - assert (¬ invalidJson) as Hinv by (rewrite Hj; by intros [? _]).
    case_decide as Hr.
    + split; [split; [by intros (r & [= <-] & _ & ?)|by intros [_ ?]]|].
      split; [split; [done|]; intros (_ & [[? _]|[_ ?]]); done|].
      intros r [= <-] _. simpl. done.
    + split; [split; [by intros (r & ? & _)|by intros [_ ?]]|].
      split; [split; [auto|done]|done].
Qed.

(** X17. With both admin credentials configured, the login is not answered
    401 exactly when the body carries both of them as strings, and a token it
    answers with is the one signed for the configured user name. *)
Theorem login_requires_both_credentials
    (sign : AdminController.JVal → option string → option string)
    (env : AdminController.Env) (body : option AdminController.Body)
    (u p : string) :
  AdminController.ADMIN_USER env = Some u →
  AdminController.ADMIN_PASS env = Some p →
  (AdminController.adminLogin sign env body ≠ AdminController.Status401 "Bad creds"
   ↔ ∃ b, body = Some b
          ∧ AdminController.username b = AdminController.JString u
          ∧ AdminController.password b = AdminController.JString p)
  ∧ (∀ token,
        AdminController.adminLogin sign env body = AdminController.Token token →
        sign (AdminController.JString u) (AdminController.JWT_SECRET env)
        = Some token).
Proof.
  intros Hu Hp. unfold AdminController.adminLogin. rewrite Hu, Hp.
  assert (Heq : ∀ v t, AdminController.strictEq v (Some t) = true
                       ↔ v = AdminController.JString t).
  { intros [|s|] t; simpl; [done| |done]. rewrite bool_decide_eq_true.
    split; congruence. }
  destruct (AdminController.strictEq
              (AdminController.username (AdminController.credentials body))
              (Some u)) eqn:E1;
    [destruct (AdminController.strictEq
                 (AdminController.password (AdminController.credentials body))
                 (Some p)) eqn:E2|]; simpl.
  - apply Heq in E1, E2. split.
    + split; [intros _|by destruct (sign _ _)].
      destruct body as [b|]; [by exists b|done].
    + intros token. rewrite E1. by destruct (sign _ _) as [t|]; intros [= <-].
  - split; [|done]. split; [done|]. intros (b & -> & _ & Hpw). simpl in E2.
    apply (Heq _ p) in Hpw. congruence.
  - split; [|done]. split; [done|]. intros (b & -> & Hun & _). simpl in E1.
    apply (Heq _ u) in Hun. congruence.
Qed.

(** X18. With neither admin credential configured, a login request that
    carries neither is not rejected: it is answered with whatever the signing
    of an absent user name gives. *)
Theorem login_open_without_configuration
    (sign : AdminController.JVal → option string → option string)
    (env : AdminController.Env) (body : option AdminController.Body) :
  AdminController.ADMIN_USER env = None →
  AdminController.ADMIN_PASS env = None →
  AdminController.username (AdminController.credentials body)
  = AdminController.JUndefined →
  AdminController.password (AdminController.credentials body)
  = AdminController.JUndefined →
  AdminController.adminLogin sign env body
  = match sign AdminController.JUndefined (AdminController.JWT_SECRET env) with
    | Some token => AdminController.Token token
    | None => AdminController.Throws
    end
  ∧ ∀ msg, AdminController.adminLogin sign env body ≠ AdminController.Status401 msg.
Proof.
  intros Hu Hp Hbu Hbp. unfold AdminController.adminLogin.
  rewrite Hu, Hp, Hbu, Hbp. simpl. split; [done|]. by destruct (sign _ _).
Qed.

(** ** The further theorems at the scenario *)

Lemma scenario_s1 : sockets Scenario.world !! "s1" = Some Cases.s1.
Proof. by vm_compute. Defined.

Lemma scenario_s2 : sockets Scenario.world !! "s2" = Some Cases.s2.
Proof. by vm_compute. Defined.

Lemma scenario_pending :
  CommandModel.findPending "A1" Scenario.store
  = CommandModel.Resolved Cases.pendingA1.
Proof. by vm_compute. Defined.

(** X1 at the scenario: s2, which joined A1 with its handshake. *)
Lemma socket_data_names_device_room_witness :
  sockets Scenario.world !! "s2" = Some Cases.s2
  ∧ "s2" ∈ membersOf "A1" Scenario.world.
Proof.
  split; [exact scenario_s2|].
  destruct (socket_data_names_device_room Scenario.N Scenario.world "s2" Cases.s2
              scenario_reachable scenario_s2) as (_ & _ & H3 & _).
  by apply H3.
Defined.

(** X2 at the scenario: the registration of s1 and the socket s2. *)
Lemma event_changes_own_socket_only_witness :
  subject (RegisterDevice "s1" "a1") ≠ Some "s2"
  ∧ sockets (step Scenario.N 1 (RegisterDevice "s1" "a1") Scenario.world).1 !! "s2"
    = sockets Scenario.world !! "s2".
Proof.
  assert (Hne : subject (RegisterDevice "s1" "a1") ≠ Some "s2") by discriminate.
  split; [exact Hne|].
  apply (event_changes_own_socket_only Scenario.N 1 (RegisterDevice "s1" "a1")
           Scenario.world "s2" Hne).
Defined.

(** X3 at the scenario: s1 registers for A1. *)
Lemma registered_confirmation_rooms_witness :
  truthyStr (Scenario.N "a1") = Some "A1"
  ∧ sockets (step Scenario.N 1 (RegisterDevice "s1" "a1") Scenario.world).1 !! "s1"
    = Some {| rooms := {[Some "s1"; Some "A1"]}; data_deviceId := Some "A1" |}.
Proof.
  split; [reflexivity|].
  apply (registered_confirmation_rooms Scenario.N 1 "s1" "a1" "A1" Cases.s1
           Scenario.world scenario_reachable scenario_s1 eq_refl).
Defined.

(** X4 at the scenario: s1 registers for A1 twice, spelled differently. *)
Lemma reregistration_same_id_repeats_dispatch_witness :
  let r1 := step Scenario.N 1 (RegisterDevice "s1" "a1") Scenario.world in
  let r2 := step Scenario.N 2 (RegisterDevice "s1" " A1 ") r1.1 in
  truthyStr (Scenario.N "a1") = Some "A1"
  ∧ truthyStr (Scenario.N " A1 ") = Some "A1"
  ∧ r2.1 = r1.1
  ∧ timers r2.2 = timers r1.2.
Proof.
  intros r1 r2. do 2 (split; [reflexivity|]).
  destruct (reregistration_same_id_repeats_dispatch Scenario.N 1 2 "s1" "a1" " A1 "
              "A1" Scenario.world scenario_connected eq_refl eq_refl)
    as (H1 & H2 & _).
  by split.
Defined.

(** X5 at the scenario: the verification of the registration of s1. *)
Lemma room_verification_after_registration_witness :
  truthyStr (Scenario.N "a1") = Some "A1"
  ∧ runTask (VerifyRoom "s1" "A1")
            (step Scenario.N 1 (RegisterDevice "s1" "a1") Scenario.world).1
    = [].
Proof.
  split; [reflexivity|].
  destruct (room_verification_after_registration Scenario.N 1 "s1" "a1" "A1"
              Scenario.world scenario_connected eq_refl) as (_ & H2 & _).
  exact H2.
Defined.

(** X6 at the scenario: s2 disconnects. *)
Lemma disconnect_leaves_rooms_witness :
  is_Some (sockets Scenario.world !! "s2")
  ∧ membersOf "A1" (step Scenario.N 1 (Disconnect "s2") Scenario.world).1
    = membersOf "A1" Scenario.world ∖ {["s2"]}.
Proof.
  assert (Hc : is_Some (sockets Scenario.world !! "s2")).
  { exists Cases.s2. exact scenario_s2. }
  split; [exact Hc|].
  destruct (disconnect_leaves_rooms Scenario.N 1 "s2" Scenario.world Hc)
    as (_ & _ & H3 & _).
  apply H3.
Defined.

(** X7 at the scenario: a third connection names a1 in its handshake. *)
Lemma handshake_join_unvalidated_witness :
  sockets Scenario.world !! "s3" = None
  ∧ (step Scenario.N 1 (Connection "s3" (Some "a1")) Scenario.world).2
    = [SetInterval "s3" 30000]
  ∧ "s3" ∈ membersOf "A1"
             (step Scenario.N 1 (Connection "s3" (Some "a1")) Scenario.world).1.
Proof.
  assert (Hn : sockets Scenario.world !! "s3" = None) by (by vm_compute).
  split; [exact Hn|].
  destruct (handshake_join_unvalidated Scenario.N 1 "s3" "a1" (Some "a1")
              Scenario.world Hn eq_refl) as (H1 & _ & H3 & _).
  split; [exact H1|]. by apply H3.
Defined.

(** X8 at the scenario: the pending commands of A1. *)
Lemma pending_cap_keeps_newest_witness :
  CommandModel.findPending "A1" Scenario.store
  = CommandModel.Resolved Cases.pendingA1
  ∧ length Cases.pendingA1
    = (20 `min` length (filter (CommandModel.matchesPending "A1")
                               (CommandModel.docs Scenario.store)))%nat.
Proof.
  split; [exact scenario_pending|].
  apply (PendingQuery.pending_cap_keeps_newest "A1" Scenario.store Cases.pendingA1
           scenario_pending).
Defined.

(** X9 at the scenario: the timers of the registration of s1 for A1. *)
Lemma dispatch_timer_bounds_witness :
  truthyStr (Scenario.N "a1") = Some "A1"
  ∧ timers (registerDevice Scenario.N 1 "s1" "a1" Cases.s1 Scenario.store).2
    = imap (λ i c, (Z.of_nat i * 2000, SendPending "s1" c)) Cases.pendingA1
      ++ [(3000, VerifyRoom "s1" "A1")].
Proof.
  split; [reflexivity|].
  apply (dispatch_timer_bounds Scenario.N 1 "s1" "a1" "A1" Cases.s1 Scenario.store
           Cases.pendingA1 eq_refl scenario_pending).
Defined.

(** X10 at the scenario: the command that ends in c1 is acknowledged with
    its id in upper case; the one that ends in c2 is found as before. *)
Lemma ack_touches_one_command_witness :
  ackTarget (Cases.ackUpper "c1" true) = Some (Scenario.oid "c1")
  ∧ CommandModel.findById (Scenario.oid "c2")
      (CommandModel.docs
         (commandAck 5 6 7 (Some (Cases.ackUpper "c1" true)) Scenario.store).1)
    = CommandModel.findById (Scenario.oid "c2") (CommandModel.docs Scenario.store).
Proof.
  split; [reflexivity|].
  destruct (ack_touches_one_command 5 6 7 (Cases.ackUpper "c1" true) Scenario.store)
    as (_ & _ & H3).
  apply H3. vm_compute. intros [=].
Defined.

(** X11 at the scenario: one acknowledgment names an ObjectId of no command,
    another names no ObjectId at all. *)
Lemma ack_not_applied_is_logged_witness :
  CommandModel.findById (Scenario.oid "ff") (CommandModel.docs Scenario.store) = None
  ∧ commandAck 5 6 7 (Some (Scenario.ack "ff" true)) Scenario.store
    = (Scenario.store, [Console (WarnCommandNotFound (Scenario.oid "ff"))])
  ∧ commandAck 5 6 7 (Some Cases.ackNoObjectId) Scenario.store
    = (Scenario.store, [Console ErrorProcessingAck]).
Proof.
  split; [reflexivity|]. split.
  - apply (ack_not_applied_is_logged 5 6 7 (Scenario.ack "ff" true) Scenario.store
             (Scenario.oid "ff") eq_refl).
    intros id H. vm_compute in H. injection H as <-. right. reflexivity.
  - apply (ack_not_applied_is_logged 5 6 7 Cases.ackNoObjectId Scenario.store
             "zz" eq_refl).
    intros id H. by vm_compute in H.
Defined.

(** X12 at the scenario: s2 acknowledges what s1 could have acknowledged. *)
Lemma ack_ignores_sender_witness :
  is_Some (sockets Scenario.world !! "s1")
  ∧ is_Some (sockets Scenario.world !! "s2")
  ∧ emitted (step Scenario.N 5
                  (CommandAck "s1" (Some (Scenario.ack "c1" true)) 6 7)
                  Scenario.world).2 = [].
Proof.
  assert (Hc : is_Some (sockets Scenario.world !! "s2")).
  { exists Cases.s2. exact scenario_s2. }
  split; [exact scenario_connected|]. split; [exact Hc|].
  destruct (ack_ignores_sender Scenario.N 5 6 7 "s1" "s2" (Scenario.ack "c1" true)
              (Some "B2") Scenario.world scenario_connected Hc) as (_ & H2 & _).
  exact H2.
Defined.

(** X13 at the scenario: the acknowledgment of the command that ends in c1
    carries a message and no code. *)
Lemma ack_replaces_result_fields_witness :
  ackTarget (Scenario.ack "c1" true) = Some (Scenario.oid "c1")
  ∧ CommandModel.findById (Scenario.oid "c1") (CommandModel.docs Scenario.store)
    = Some (Scenario.command "c1" "A1" 10 false)
  ∧ ∃ c', CommandModel.findById (Scenario.oid "c1")
            (CommandModel.docs
               (commandAck 5 6 7 (Some (Scenario.ack "c1" true)) Scenario.store).1)
          = Some c'
          ∧ CommandModel.ussdCode c' = None
          ∧ CommandModel.executionMessage c' = Some "OK".
Proof.
  do 2 (split; [reflexivity|]).
  destruct (ack_replaces_result_fields 5 6 7 (Scenario.ack "c1" true) Scenario.store
              (Scenario.oid "c1") (Scenario.command "c1" "A1" 10 false)
              eq_refl eq_refl eq_refl)
    as (c' & H1 & H2 & H3 & _).
  by exists c'.
Defined.

(** X14 at the scenario: the command that ends in c1 is acknowledged with
    success; the next query for A1 answers with the two others. *)
Lemma acknowledged_command_not_redelivered_witness :
  let db1 := (commandAck 5 6 7 (Some (Scenario.ack "c1" true)) Scenario.store).1 in
  ackTarget (Scenario.ack "c1" true) = Some (Scenario.oid "c1")
  ∧ NoDup (CommandModel._id <$> CommandModel.docs Scenario.store)
  ∧ CommandModel.findPending "A1" db1
    = CommandModel.Resolved [Scenario.command "c2" "A1" 30 false;
                             Scenario.command "c4" "A1" 20 false]
  ∧ ∀ x, x ∈ [Scenario.command "c2" "A1" 30 false;
              Scenario.command "c4" "A1" 20 false] →
         CommandModel._id x ≠ Scenario.oid "c1".
Proof.
  intros db1.
  assert (Hnd : NoDup (CommandModel._id <$> CommandModel.docs Scenario.store)).
  { apply (bool_decide_unpack _). by vm_compute. }
  assert (Hl : CommandModel.findPending "A1" db1
               = CommandModel.Resolved [Scenario.command "c2" "A1" 30 false;
                                        Scenario.command "c4" "A1" 20 false])
    by (by vm_compute).
  split; [reflexivity|]. split; [exact Hnd|]. split; [exact Hl|].
  destruct (acknowledged_command_not_redelivered Scenario.N 5 6 7 9
              (Scenario.ack "c1" true) Scenario.store (Scenario.oid "c1")
              eq_refl eq_refl Hnd) as (H1 & _).
  intros x. by apply (H1 "A1" _ x Hl).
Defined.

(** X15 at the scenario: a route error in production. *)
Lemma error_reply_hides_message_witness :
  ∃ r, ErrorHandler.globalErrorHandler (Some "production") 7 Cases.routeError
       = ErrorHandler.Sent r
       ∧ ErrorHandler.body_message r
         ∈ [Some "The request payload is too large";
            Some "Request body contains invalid JSON";
            Some "Something went wrong"].
Proof.
  eexists. split; [reflexivity|].
  apply (error_reply_hides_message (Some "production") 7 Cases.routeError _
           ltac:(discriminate) eq_refl).
Defined.

(** X16 at the scenario: a payload too large that is a SyntaxError without a
    message as well. *)
Lemma error_handler_outcomes_witness :
  ErrorHandler.type Cases.tooLarge = Some "entity.too.large"
  ∧ ∃ r, ErrorHandler.globalErrorHandler None 7 Cases.tooLarge = ErrorHandler.Sent r
         ∧ ErrorHandler.code r = 413
         ∧ ErrorHandler.body_error r = "Request too large".
Proof.
  split; [reflexivity|].
  apply (proj1 (error_handler_outcomes None 7 Cases.tooLarge) eq_refl).
Defined.

(** X17 at the scenario: the configured credentials are sent. *)
Lemma login_requires_both_credentials_witness :
  AdminController.ADMIN_USER Cases.configured = Some "admin"
  ∧ AdminController.ADMIN_PASS Cases.configured = Some "pw"
  ∧ AdminController.adminLogin Cases.sign Cases.configured
      (Some {| AdminController.username := AdminController.JString "admin";
               AdminController.password := AdminController.JString "pw" |})
    ≠ AdminController.Status401 "Bad creds".
Proof.
  do 2 (split; [reflexivity|]).
  apply (proj1 (login_requires_both_credentials Cases.sign Cases.configured _
                  "admin" "pw" eq_refl eq_refl)).
  by eexists.
Defined.

(** X18 at the scenario: nothing is configured and nothing is sent. *)
Lemma login_open_without_configuration_witness :
  AdminController.ADMIN_USER Cases.unconfigured = None
  ∧ AdminController.ADMIN_PASS Cases.unconfigured = None
  ∧ AdminController.adminLogin Cases.sign Cases.unconfigured None
    = AdminController.Token ".k".
Proof.
  do 2 (split; [reflexivity|]).
  apply (proj1 (login_open_without_configuration Cases.sign Cases.unconfigured None
                  eq_refl eq_refl eq_refl eq_refl)).
Defined.
